(** * release-sanity-checker: a shallow embedding of [main.py]

  The script reads an environment name, walks the configured
  microservices and their endpoints, posts each request fixture, writes
  the live response and the recorded response into two temporary text
  files and prints every line of the first file that differs from the
  line at the same place in the second.

  The embedding keeps the structure of the script: the two temporary
  files are explicit state (text and stream position), console output,
  log lines and HTTP posts are recorded as a trace of events, and
  exceptions are an outcome of the computation.  The collaborators the
  script calls but does not define (configparser, the file system, the
  [requests] transport) are fields of a [world] record. *)

From Stdlib Require Import List String Ascii ZArith NArith Lia Bool Arith.
From Stdlib Require Import Numbers.DecimalString.
Import ListNotations.

Set Warnings "-register-all".

Open Scope list_scope.
Open Scope string_scope.

(** ** Text *)

Module Text.

Definition LF : ascii := "010"%char.
Definition CR : ascii := "013"%char.
Definition NUL : ascii := "000"%char.

Fixpoint take (n : nat) (s : string) : string :=
  match n, s with
  | S n', String c s' => String c (take n' s')
  | _, _ => ""
  end.

Fixpoint drop (n : nat) (s : string) : string :=
  match n, s with
  | S n', String _ s' => drop n' s'
  | _, _ => s
  end.

Fixpoint zeros (n : nat) : string :=
  match n with
  | O => ""
  | S n' => String NUL (zeros n')
  end.

(** [resize n s] is the text of a file of text [s] once its size is set to
    [n]: cut when it is longer, filled with NUL when it is shorter. *)
Definition resize (n : nat) (s : string) : string :=
  take n s ++ zeros (n - length s).

Fixpoint repeat_str (s : string) (n : nat) : string :=
  match n with
  | O => ""
  | S n' => s ++ repeat_str s n'
  end.

(** [sep.join(parts)] *)
Fixpoint join (sep : string) (parts : list string) : string :=
  match parts with
  | [] => ""
  | [p] => p
  | p :: ps => p ++ sep ++ join sep ps
  end.

(** [str.lower] on the letters A-Z; every other character is kept. *)
Definition lower_char (c : ascii) : ascii :=
  let n := nat_of_ascii c in
  if ((65 <=? n) && (n <=? 90))%nat then ascii_of_nat (n + 32) else c.

Fixpoint lower (s : string) : string :=
  match s with
  | "" => ""
  | String c s' => String (lower_char c) (lower s')
  end.

(** [s.split(sep)] for a one-character separator: never the empty list. *)
Fixpoint split (sep : ascii) (s : string) : list string :=
  match s with
  | "" => [""]
  | String c s' =>
      if Ascii.eqb c sep then "" :: split sep s'
      else match split sep s' with
           | [] => [String c ""]
           | p :: ps => String c p :: ps
           end
  end.

(** The ASCII characters [str.isspace] accepts.  Text is held as bytes;
    the white space outside ASCII (U+00A0, U+2003 and the like), which
    [str.strip] removes as well, is not followed: [strip] below leaves it
    in place. *)
Definition is_space (c : ascii) : bool :=
  let n := nat_of_ascii c in
  (((9 <=? n) && (n <=? 13)) || ((28 <=? n) && (n <=? 32)))%nat.

Fixpoint lstrip (s : string) : string :=
  match s with
  | "" => ""
  | String c s' => if is_space c then lstrip s' else s
  end.

Fixpoint rstrip (s : string) : string :=
  match s with
  | "" => ""
  | String c s' =>
      match rstrip s' with
      | "" => if is_space c then "" else String c ""
      | r => String c r
      end
  end.

Definition strip (s : string) : string := rstrip (lstrip s).

End Text.

(** ** JSON values and [json.dumps(value, indent=4)]

  The values are those [json.load] and [Response.json] build: [None],
  booleans, integers, floats, strings, lists, and dictionaries with string
  keys in insertion order.  A Python string is its sequence of code
  points.  A float is carried as the text [json.dumps] writes for it:
  what [float.__repr__] gives for a finite float, and [NaN], [Infinity],
  [-Infinity] for the others. *)

Module Json.

Definition pystr := list N.

Inductive json : Type :=
| JNull
| JBool (b : bool)
| JInt (z : Z)
| JFloat (repr : string)
| JStr (s : pystr)
| JList (items : list json)
| JDict (entries : list (pystr * json)).

(** A Python string literal made of ASCII characters. *)
Definition str (s : string) : pystr := map N_of_ascii (list_ascii_of_string s).

Definition DQUOTE : ascii := ascii_of_nat 34.
Definition quote : string := String DQUOTE "".

Definition hex_digit (n : N) : ascii :=
  nth (N.to_nat n)
      ["0"; "1"; "2"; "3"; "4"; "5"; "6"; "7"; "8"; "9";
       "a"; "b"; "c"; "d"; "e"; "f"]%char "0"%char.

(** ['{0:04x}'.format(n)] for [n < 0x10000] *)
Definition hex4 (n : N) : string :=
  String (hex_digit (N.land (N.shiftr n 12) 15))
 (String (hex_digit (N.land (N.shiftr n 8) 15))
 (String (hex_digit (N.land (N.shiftr n 4) 15))
 (String (hex_digit (N.land n 15)) ""))).

(** The replacement [py_encode_basestring_ascii] makes for one code point:
    backslash and the double quote get a backslash, printable ASCII is
    kept, the named control characters get their short escape and every
    other code point a [\uXXXX] escape (a surrogate pair above the basic
    plane). *)
Definition escape_char (n : N) : string :=
  (if n =? 92 then "\\"
   else if n =? 34 then "\" ++ quote
   else if (32 <=? n) && (n <=? 126) then String (ascii_of_N n) ""
   else if n =? 8 then "\b"
   else if n =? 12 then "\f"
   else if n =? 10 then "\n"
   else if n =? 13 then "\r"
   else if n =? 9 then "\t"
   else if n <? 65536 then "\u" ++ hex4 n
   else
     let m := n - 65536 in
     "\u" ++ hex4 (N.lor 55296 (N.land (N.shiftr m 10) 1023)) ++
     "\u" ++ hex4 (N.lor 56320 (N.land m 1023)))%N.

Definition encode_basestring_ascii (s : pystr) : string :=
  quote ++ String.concat "" (map escape_char s) ++ quote.

(** [int.__repr__] *)
Definition int_repr (z : Z) : string := NilEmpty.string_of_int (Z.to_int z).

Definition indent_unit : string := "    ".
Definition item_separator : string := ",".
Definition key_separator : string := ": ".

Definition newline_indent (level : nat) : string :=
  String Text.LF (Text.repeat_str indent_unit level).

(** [_iterencode(o, level)] of [json.encoder], chunks joined. *)
Fixpoint encode (level : nat) (o : json) : string :=
  match o with
  | JNull => "null"
  | JBool true => "true"
  | JBool false => "false"
  | JInt z => int_repr z
  | JFloat r => r
  | JStr s => encode_basestring_ascii s
  | JList [] => "[]"
  | JList items =>
      "[" ++ newline_indent (S level)
          ++ Text.join (item_separator ++ newline_indent (S level))
                       (map (encode (S level)) items)
          ++ newline_indent level ++ "]"
  | JDict [] => "{}"
  | JDict entries =>
      "{" ++ newline_indent (S level)
          ++ Text.join (item_separator ++ newline_indent (S level))
               (map (fun kv =>
                       encode_basestring_ascii (fst kv) ++ key_separator
                         ++ encode (S level) (snd kv))
                    entries)
          ++ newline_indent level ++ "}"
  end.

(** [json.dumps(o, indent=4)] *)
Definition dumps (o : json) : string := encode 0 o.

End Json.

(** ** Text files opened in mode [r+]

  A file is its text and the position of its stream.  All text the script
  writes is ASCII (the encoder escapes everything else), so characters and
  bytes coincide. *)

Module File.

Record file : Type := mk { content : string; pos : nat }.

(** [tempfile.TemporaryFile(mode='r+', encoding='utf-8')] *)
Definition fresh : file := mk "" 0.

(** [f.truncate()]: the size becomes the current position; the position
    is kept. *)
Definition truncate (f : file) : file :=
  mk (Text.resize (pos f) (content f)) (pos f).

(** [f.write(s)]: [s] is stored from the current position on and the
    position moves behind it. *)
Definition write (s : string) (f : file) : file :=
  mk (Text.resize (pos f) (content f) ++ s
        ++ Text.drop (pos f + length s) (content f))
     (pos f + length s).

(** [f.flush()] leaves text and position as they are. *)
Definition flush (f : file) : file := f.

(** The text from the current position to the end. *)
Definition unread (f : file) : string := Text.drop (pos f) (content f).

Definition at_eof (f : file) : Prop := length (content f) <= pos f.

(** The lines of a text as iteration over the file yields them, each with
    the number of characters it takes in the file.  The file is read with
    universal newlines: LF, CR LF and CR end a line and are handed over as
    LF. *)
Fixpoint readlines (s : string) : list (string * nat) :=
  match s with
  | "" => []
  | String c s' =>
      if Ascii.eqb c Text.LF then (String Text.LF "", 1) :: readlines s'
      else if Ascii.eqb c Text.CR then
        match s' with
        | String c2 s'' =>
            if Ascii.eqb c2 Text.LF
            then (String Text.LF "", 2) :: readlines s''
            else (String Text.LF "", 1) :: readlines s'
        | "" => [(String Text.LF "", 1)]
        end
      else
        match readlines s' with
        | [] => [(String c "", 1)]
        | (l, n) :: rest => (String c l, S n) :: rest
        end
  end.

(** The iterator of a file: the lines it has yet to yield.  (An iteration
    that is left before the end of the file keeps [tell()], and with it
    [truncate()], disabled; the script never gets there, see
    [scratch_files_never_read_back], and the flag is not modelled.) *)
Definition iter (f : file) : list (string * nat) := readlines (unread f).

(** [zip(it1, it2)]: [next(it1)] is asked first, and [next(it2)] only when
    [it1] gave a line.  The result is the list of pairs and how many
    characters each iterator has consumed. *)
Fixpoint zip_lines (it1 it2 : list (string * nat))
  : list (string * string) * (nat * nat) :=
  match it1 with
  | [] => ([], (0, 0))
  | (l1, n1) :: it1' =>
      match it2 with
      | [] => ([], (n1, 0))
      | (l2, n2) :: it2' =>
          let '(ps, (a, b)) := zip_lines it1' it2' in
          ((l1, l2) :: ps, (n1 + a, n2 + b))
      end
  end.

Definition advance (n : nat) (f : file) : file := mk (content f) (pos f + n).

End File.

(** ** The script *)

Module Checker.

Import Json File.

(** The exceptions the model follows: those of a missing section, key or
    file, of a text that is not JSON and of a post that gets no reply.  What
    else the collaborators can raise ([PermissionError] and
    [IsADirectoryError] of [open], [UnicodeDecodeError] of [json.load] on a
    file that is not UTF-8, [MissingSchema] of [requests.post], ...) is left
    out. *)
Inductive exn : Type :=
| NoSectionError            (* configparser: no such section *)
| NoOptionError             (* configparser: no such key *)
| InterpolationError        (* configparser: a value it cannot expand *)
| FileNotFoundError         (* open *)
| JSONDecodeError           (* json.load *)
| ConnectionError           (* requests.post *)
| ResponseJSONDecodeError.  (* Response.json *)

Inductive result (A : Type) : Type :=
| Ok (a : A)
| Raise (e : exn).
Arguments Ok {A} a.
Arguments Raise {A} e.

(** What a run does to the outside, in order. *)
Inductive event : Type :=
| Print (text : string)             (* print(text) *)
| Prompt (text : string)            (* input(text) *)
| Log (message : string)            (* logging.info *)
| Post (url : string) (body : json) (* requests.post(url, json=body) *).

(** A fixture path on disk: no file, or a file and what [json.load] makes
    of it ([None] when [json.load] raises [JSONDecodeError] on its text). *)
Inductive fixture : Type :=
| Absent
| Present (parsed : option json).

(** What [requests.post] meets: no response at all, or a response with
    its status code and what [Response.json] makes of its body ([None]
    when the body is not JSON). *)
Inductive reply : Type :=
| NoReply
| Reply (status : nat) (body : option json).

(** The collaborators of the script. *)
Record world : Type := {
  config_items : string -> result (list (string * string));
  config_get : string -> string -> result string;
  disk : string -> fixture;
  network : string -> json -> reply
}.

(** The two scratch files of [main]. *)
Record tmp : Type := {
  request_compare_tmp : file;
  response_compare_tmp : file
}.

(** A computation runs on the scratch files and gives the events it
    caused, the files it leaves and a value or an exception. *)
Definition M (A : Type) : Type := tmp -> list event * tmp * result A.

Definition ret {A} (a : A) : M A := fun t => ([], t, Ok a).

Definition bind {A B} (m : M A) (k : A -> M B) : M B :=
  fun t =>
    match m t with
    | (ev, t1, Ok a) =>
        match k a t1 with
        | (ev', t2, r) => ((ev ++ ev')%list, t2, r)
        end
    | (ev, t1, Raise e) => (ev, t1, Raise e)
    end.

Definition raise {A} (e : exn) : M A := fun t => ([], t, Raise e).

Definition emit (e : event) : M unit := fun t => ([e], t, Ok tt).

Definition lift {A} (r : result A) : M A := fun t => ([], t, r).

(** [try: m  except Exception: handler] *)
Definition try_except {A} (m : M A) (handler : M A) : M A :=
  fun t =>
    match m t with
    | (ev, t1, Ok a) => (ev, t1, Ok a)
    | (ev, t1, Raise _) =>
        match handler t1 with
        | (ev', t2, r) => ((ev ++ ev')%list, t2, r)
        end
    end.

Definition on_request_tmp (op : file -> file) : M unit :=
  fun t => ([], {| request_compare_tmp := op (request_compare_tmp t);
                   response_compare_tmp := response_compare_tmp t |}, Ok tt).

Definition on_response_tmp (op : file -> file) : M unit :=
  fun t => ([], {| request_compare_tmp := request_compare_tmp t;
                   response_compare_tmp := op (response_compare_tmp t) |}, Ok tt).

Declare Scope checker_scope.
Delimit Scope checker_scope with checker.
Notation "x <- m ;; k" := (bind m (fun x => k))
  (at level 61, m at next level, right associativity) : checker_scope.
Notation "m ;; k" := (bind m (fun _ => k))
  (at level 61, right associativity) : checker_scope.
Open Scope checker_scope.

(** [for x in l: body(x)] *)
Fixpoint for_each {A} (l : list A) (body : A -> M unit) : M unit :=
  match l with
  | [] => ret tt
  | x :: xs => body x ;; for_each xs body
  end.

Definition events {A} (r : list event * tmp * result A) : list event := fst (fst r).
Definition files {A} (r : list event * tmp * result A) : tmp := snd (fst r).
Definition outcome {A} (r : list event * tmp * result A) : result A := snd r.

(** *** [call_microservice] *)

Record payload_dict : Type := { url : string; payload : json }.

Definition requests_post (w : world) (u : string) (body : json) : M (option json) :=
  emit (Post u body) ;;
  match network w u body with
  | NoReply => raise ConnectionError
  | Reply _ parsed => ret parsed
  end.

Definition response_json (parsed : option json) : M json :=
  match parsed with
  | Some j => ret j
  | None => raise ResponseJSONDecodeError
  end.

Definition call_microservice (w : world) (p : payload_dict) : M json :=
  emit (Log ("Sending request to " ++ url p)) ;;
  request <- requests_post w (url p) (payload p) ;;
  response_json request.

(** *** [main] *)

Definition banner : string :=
  "Welcome to the release sanity checker. This tool allows you to check for differences in endpoint responses "
  ++ "before and after a release. Now it will start to collect responses to the configured endpoints (head to "
  ++ "config.ini file to know more)" ++ String Text.LF "".

Definition prompt : string :=
  "Insert environment to run the query on: (svil, test, prod):" ++ String Text.LF "".

Definition environments : list string := ["svil"; "test"; "prod"].

Definition marker : string := "Found difference: ".

Definition open_ (w : world) (path : string) : M (option json) :=
  match disk w path with
  | Absent => raise FileNotFoundError
  | Present parsed => ret parsed
  end.

Definition json_load (parsed : option json) : M json :=
  match parsed with
  | Some j => ret j
  | None => raise JSONDecodeError
  end.

(** Lines 66 to 68: the loop over [zip] of the two files.  The lines are
    read from where each file stands; reading moves the files on. *)
Definition report (lines : string * string) : M unit :=
  let '(line1, line2) := lines in
  if negb (String.eqb line1 line2) then emit (Print (marker ++ line1)) else ret tt.

Definition compare_lines : M unit :=
  fun t =>
    let '(pairs, (n1, n2)) :=
      zip_lines (iter (request_compare_tmp t)) (iter (response_compare_tmp t)) in
    for_each pairs report
      {| request_compare_tmp := advance n1 (request_compare_tmp t);
         response_compare_tmp := advance n2 (response_compare_tmp t) |}.

(** Lines 58 to 64: both files are truncated, written and flushed. *)
Definition write_texts (response : json) (expected_response_file : option json) : M unit :=
  on_request_tmp truncate ;;
  on_response_tmp truncate ;;
  on_request_tmp (write (dumps response)) ;;
  expected <- json_load expected_response_file ;;
  on_response_tmp (write (dumps expected)) ;;
  on_request_tmp flush ;;
  on_response_tmp flush.

(** Lines 58 to 68. *)
Definition compare (response : json) (expected_response_file : option json) : M unit :=
  write_texts response expected_response_file ;;
  compare_lines.

(** Lines 50 to 68: the body of the loop over the endpoints. *)
Definition check_endpoint (w : world) (base : string) (endpoint : string) : M unit :=
  let request_file_path := "requests" ++ endpoint ++ ".json" in
  let response_file_path := "responses" ++ endpoint ++ ".json" in
  request <- open_ w request_file_path ;;
  expected_response_file <- open_ w response_file_path ;;
  body <- json_load request ;;
  let p := {| url := base ++ endpoint; payload := body |} in
  response <- call_microservice w p ;;
  compare response expected_response_file.

(** Lines 44 to 68: the body of the loop over the microservices.  The
    handler of the [try] is [continue]. *)
Definition check_microservice (w : world) (item : string * string) : M unit :=
  let '(microservice_name, base) := item in
  resolved <-
    try_except
      (v <- lift (config_get w microservice_name "endpoints") ;;
       ret (Some (map Text.strip (Text.split "," v))))
      (ret None) ;;
  match resolved with
  | None => ret tt
  | Some endpoints => for_each endpoints (check_endpoint w base)
  end.

(** Lines 38 to 68: the [with] block, on two new temporary files. *)
Definition check_environment (w : world) (env : string) : M unit :=
  fun _ =>
    (path_items <- lift (config_items w ("urls-" ++ env)) ;;
     for_each path_items (check_microservice w))
      {| request_compare_tmp := fresh; response_compare_tmp := fresh |}.

(** [env in ('svil', 'test', 'prod')] *)
Definition known (env : string) : bool := existsb (String.eqb env) environments.

(** [typed] is the line [input] reads from the operator. *)
Definition main (w : world) (typed : string) : M unit :=
  emit (Print banner) ;;
  emit (Prompt prompt) ;;
  let env := Text.lower typed in
  if negb (known env) then ret tt
  else check_environment w env.

(** A run of the script: no scratch file exists before [main] makes them. *)
Definition no_tmp : tmp := {| request_compare_tmp := fresh; response_compare_tmp := fresh |}.

Definition run (w : world) (typed : string) : list event * tmp * result unit :=
  main w typed no_tmp.

End Checker.

(** ** Notions the properties are stated with *)

Module Notions.

Import Json File Checker.

(** The reports of a list of line pairs, in the words of the
    specification: one report for every pair of lines that are not
    identical, made of the marker and the line of the actual side. *)
Definition diff_events (pairs : list (string * string)) : list event :=
  flat_map (fun p => if String.eqb (fst p) (snd p) then []
                     else [Print (marker ++ fst p)]) pairs.

(** The lines of a text, as iteration over a file holding it yields them. *)
Definition lines (s : string) : list string := map fst (readlines s).

(** The two scratch files holding two texts, each standing at its start. *)
Definition rewound (actual expected : string) : tmp :=
  {| request_compare_tmp := mk actual 0; response_compare_tmp := mk expected 0 |}.

Definition is_print (e : event) : bool :=
  match e with Print _ => true | _ => false end.

(** The exception a reply makes [call_microservice] raise, if any. *)
Definition transport_error (r : reply) : option exn :=
  match r with
  | NoReply => Some ConnectionError
  | Reply _ None => Some ResponseJSONDecodeError
  | Reply _ (Some _) => None
  end.

(** Nothing is printed. *)
Definition silent (evs : list event) : Prop :=
  Forall (fun e => is_print e = false) evs.

(** Every post of the trace got a reply with a JSON body. *)
Definition served_event (w : world) (e : event) : Prop :=
  match e with
  | Post u b => transport_error (network w u b) = None
  | _ => True
  end.

Definition served (w : world) (evs : list event) : Prop := Forall (served_event w) evs.

(** Nothing is printed, and a post the transport fails on is the last
    event and its exception the outcome. *)
Definition orderly (w : world) {A} (r : list event * tmp * result A) : Prop :=
  silent (events r) /\
  match outcome r with
  | Ok _ => served w (events r)
  | Raise e =>
      served w (events r) \/
      exists ev0 u b,
        events r = (ev0 ++ [Post u b])%list /\ served w ev0 /\
        transport_error (network w u b) = Some e
  end.



(** What a run does once the name has been read: the events behind the
    prompt. *)
Fixpoint after_prompt (evs : list event) : list event :=
  match evs with
  | [] => []
  | Prompt _ :: rest => rest
  | _ :: rest => after_prompt rest
  end.



End Notions.

(** ** Concrete worlds *)

Module Scenario.

Import Json Checker.

Definition status (s : string) : json := JDict [(str "status", JStr (str s))].

Definition request_body : json := JDict [(str "id", JInt 1)].

(** Environment [test] has the microservice [orders] at [http://svc/] with
    the endpoint [/list]; the request fixture is [{"id": 1}], the recorded
    response [{"status": "ok"}]; [live] is what the service replies. *)
Definition scenario (live : reply) : world := {|
  config_items := fun section =>
    if String.eqb section "urls-test" then Ok [("orders", "http://svc/")]
    else Raise NoSectionError;
  config_get := fun section key =>
    if String.eqb section "orders" then
      if String.eqb key "endpoints" then Ok "/list" else Raise NoOptionError
    else Raise NoSectionError;
  disk := fun path =>
    if String.eqb path "requests/list.json" then Present (Some request_body)
    else if String.eqb path "responses/list.json" then Present (Some (status "ok"))
    else Absent;
  network := fun _ _ => live
|}.

(** A response with one more key, and so one more line, than [status]. *)
Definition longer : json := JDict [(str "status", JStr (str "fail")); (str "code", JInt 7)].

(** The same service with a second endpoint [/count], whose recorded and
    live response is [{"total": 3}]; [/list] replies as recorded. *)
Definition total : json := JDict [(str "total", JInt 3)].

Definition two_endpoints : world := {|
  config_items := fun section =>
    if String.eqb section "urls-test" then Ok [("orders", "http://svc/")]
    else Raise NoSectionError;
  config_get := fun section key =>
    if String.eqb section "orders" then
      if String.eqb key "endpoints" then Ok "/list, /count" else Raise NoOptionError
    else Raise NoSectionError;
  disk := fun path =>
    if String.eqb path "requests/list.json" then Present (Some request_body)
    else if String.eqb path "responses/list.json" then Present (Some (status "ok"))
    else if String.eqb path "requests/count.json" then Present (Some request_body)
    else if String.eqb path "responses/count.json" then Present (Some total)
    else Absent;
  network := fun u _ =>
    if String.eqb u "http://svc//list" then Reply 200 (Some (status "ok"))
    else Reply 200 (Some total)
|}.

(** Environment [test] lists [billing] before [orders], and [billing] has
    no section of its own. *)
Definition with_unresolved : world := {|
  config_items := fun section =>
    if String.eqb section "urls-test"
    then Ok [("billing", "http://bill/"); ("orders", "http://svc/")]
    else Raise NoSectionError;
  config_get := config_get (scenario (Reply 200 (Some (status "ok"))));
  disk := disk (scenario (Reply 200 (Some (status "ok"))));
  network := fun _ _ => Reply 200 (Some (status "ok"))
|}.

End Scenario.

(** ** Notions for the properties of whole runs *)

Module Traces.

Import Json File Checker Notions.

(** The endpoints line 45 makes of the value of an [endpoints] key. *)
Definition endpoints_of (value : string) : list string :=
  map Text.strip (Text.split "," value).

(** The two fixture paths of an endpoint, lines 50 and 51. *)
Definition request_path (endpoint : string) : string := "requests" ++ endpoint ++ ".json".
Definition response_path (endpoint : string) : string := "responses" ++ endpoint ++ ".json".

(** The log line and the post of one call. *)
Definition call_events (u : string) (body : json) : list event :=
  [Log ("Sending request to " ++ u); Post u body].

(** The JSON bodies the posts of a trace were answered with, in order. *)
Definition replies (w : world) (evs : list event) : list json :=
  flat_map (fun e =>
              match e with
              | Post u b =>
                  match network w u b with
                  | Reply _ (Some j) => [j]
                  | _ => []
                  end
              | _ => []
              end) evs.

(** A trace in which every log line names the URL of the post that comes
    right behind it, and no post comes without its log line. *)
Fixpoint announced (evs : list event) : bool :=
  match evs with
  | [] => true
  | Print _ :: rest => announced rest
  | Prompt _ :: rest => announced rest
  | Log m :: Post u _ :: rest => String.eqb m ("Sending request to " ++ u) && announced rest
  | _ => false
  end.

(** A post the configuration and the fixtures account for: its URL is the
    base URL of a microservice of the catalogue followed by one of the
    endpoints of that microservice, its body is the request fixture of the
    endpoint, and the file of the recorded response exists. *)
Definition accounted (w : world) (items : list (string * string))
    (u : string) (body : json) : Prop :=
  exists name base value endpoint,
    In (name, base) items /\
    config_get w name "endpoints" = Ok value /\
    In endpoint (endpoints_of value) /\
    u = base ++ endpoint /\
    disk w (request_path endpoint) = Present (Some body) /\
    disk w (response_path endpoint) <> Absent.

(** Two lookups that end alike: with the same value, or both with an
    exception, whichever. *)
Definition same_lookup (r r' : result string) : Prop :=
  match r, r' with
  | Ok value, Ok value' => value = value'
  | Raise _, Raise _ => True
  | _, _ => False
  end.

Fixpoint has_char (c : ascii) (s : string) : bool :=
  match s with
  | "" => false
  | String a s' => Ascii.eqb a c || has_char c s'
  end.

(** The first and the last character of a text. *)
Definition first_char (s : string) : option ascii :=
  match s with
  | "" => None
  | String c _ => Some c
  end.

Fixpoint last_char (s : string) : option ascii :=
  match s with
  | "" => None
  | String c "" => Some c
  | String _ s' => last_char s'
  end.

Definition spaced (c : option ascii) : bool :=
  match c with
  | Some a => Text.is_space a
  | None => false
  end.

(** The texts of a list joined with nothing between them. *)
Definition texts (l : list string) : string := fold_right append "" l.

(** A computation keeps a property of the trace so far and the scratch
    files, whether it returns or raises. *)
Definition preserves (P : list event -> tmp -> Prop) {A} (m : M A) : Prop :=
  forall h t, P h t -> P (h ++ events (m t))%list (files (m t)).

(** How often a character occurs in a text. *)
Fixpoint count_char (c : ascii) (s : string) : nat :=
  match s with
  | "" => 0
  | String a s' => (if Ascii.eqb a c then 1 else 0) + count_char c s'
  end.

(** The characters the lines of an iterator take in the file together. *)
Definition widths (it : list (string * nat)) : nat :=
  fold_right (fun ln acc => snd ln + acc) 0 it.

Definition is_post (e : event) : bool :=
  match e with Post _ _ => true | _ => false end.

(** The number of endpoints a microservice lists: none when the lookup of
    its [endpoints] key raises. *)
Definition endpoints_listed (w : world) (item : string * string) : nat :=
  match config_get w (fst item) "endpoints" with
  | Ok value => List.length (endpoints_of value)
  | Raise _ => 0
  end.

Definition sum_of (l : list nat) : nat := fold_right Nat.add 0 l.

End Traces.

(** ** More concrete worlds *)

Module Worlds.

Import Json Checker Scenario.

(** The service of the scenario with fixtures that are damaged: the
    recorded response of [/list] is not JSON, the request of [/bad] is not
    JSON, and [/none] has no fixture at all. *)
Definition damaged_fixtures : world := {|
  config_items := fun section =>
    if String.eqb section "urls-test" then Ok [("orders", "http://svc/")]
    else Raise NoSectionError;
  config_get := fun section key =>
    if String.eqb section "orders" then
      if String.eqb key "endpoints" then Ok "/list,/bad,/none" else Raise NoOptionError
    else Raise NoSectionError;
  disk := fun path =>
    if String.eqb path "requests/list.json" then Present (Some request_body)
    else if String.eqb path "responses/list.json" then Present None
    else if String.eqb path "requests/bad.json" then Present None
    else if String.eqb path "responses/bad.json" then Present (Some (status "ok"))
    else Absent;
  network := fun _ _ => Reply 200 (Some (status "ok"))
|}.

(** An environment whose microservices all lack their own section. *)
Definition nothing_resolved : world := {|
  config_items := fun section =>
    if String.eqb section "urls-svil"
    then Ok [("billing", "http://bill/"); ("stock", "http://stock/")]
    else Raise NoSectionError;
  config_get := fun _ _ => Raise NoSectionError;
  disk := fun _ => Absent;
  network := fun _ _ => NoReply
|}.

(** The world of the scenario with more in its configuration: a section
    for another environment and a [timeout] key in every section. *)
Definition with_more_configuration (w : world) : world := {|
  config_items := fun section =>
    if String.eqb section "urls-prod" then Ok [("orders", "https://live/")]
    else config_items w section;
  config_get := fun section key =>
    if String.eqb key "timeout" then Ok "30" else config_get w section key;
  disk := disk w;
  network := network w
|}.

(** Environment [test] lists [billing] before [orders]; the [endpoints]
    key of [billing] is there with nothing behind it, and no fixture
    [requests.json] exists. *)
Definition blank_endpoints : world := {|
  config_items := fun section =>
    if String.eqb section "urls-test"
    then Ok [("billing", "http://bill/"); ("orders", "http://svc/")]
    else Raise NoSectionError;
  config_get := fun section key =>
    if String.eqb key "endpoints" then
      if String.eqb section "billing" then Ok ""
      else if String.eqb section "orders" then Ok "/list"
      else Raise NoSectionError
    else Raise NoOptionError;
  disk := disk (scenario (Reply 200 (Some (status "ok"))));
  network := fun _ _ => Reply 200 (Some (status "ok"))
|}.

(** The world of the scenario with another exception for every lookup of
    an [endpoints] key that raises. *)
Definition with_other_lookup_errors (w : world) : world := {|
  config_items := config_items w;
  config_get := fun section key =>
    match config_get w section key with
    | Ok value => Ok value
    | Raise _ => Raise InterpolationError
    end;
  disk := disk w;
  network := network w
|}.

(** The fixtures and replies of [two_endpoints], by endpoint. *)
Definition recorded (endpoint : string) : json :=
  if String.eqb endpoint "/list" then status "ok" else total.

End Worlds.

(** ** Facts about text *)

Module TextFacts.

Import Text.

Lemma length_append (s t : string) : length (s ++ t) = length s + length t.
Proof. induction s as [|c s IH]; simpl; [reflexivity | now rewrite IH]. Qed.

Lemma length_take (n : nat) (s : string) : length (take n s) = Nat.min n (length s).
Proof.
  revert s; induction n as [|n IH]; intros [|c s]; simpl; try reflexivity.
  now rewrite IH.
Qed.

Lemma length_zeros (n : nat) : length (zeros n) = n.
Proof. induction n; simpl; congruence. Qed.

Lemma length_resize (n : nat) (s : string) : length (resize n s) = n.
Proof.
  unfold resize. rewrite length_append, length_take, length_zeros. lia.
Qed.

Lemma drop_all (n : nat) (s : string) : length s <= n -> drop n s = "".
Proof.
  revert s; induction n as [|n IH]; intros [|c s]; simpl; intros H;
    try reflexivity; try lia.
  apply IH; lia.
Qed.

Lemma take_all (n : nat) (s : string) : length s <= n -> take n s = s.
Proof.
  revert s; induction n as [|n IH]; intros [|c s]; simpl; intros H;
    try reflexivity; try lia.
  f_equal; apply IH; lia.
Qed.

Lemma append_empty_r (s : string) : s ++ "" = s.
Proof. induction s; simpl; congruence. Qed.

Lemma append_assoc (s t u : string) : (s ++ t) ++ u = s ++ t ++ u.
Proof. induction s; simpl; congruence. Qed.

Lemma resize_same (s : string) : resize (length s) s = s.
Proof.
  unfold resize. rewrite take_all, Nat.sub_diag by lia. apply append_empty_r.
Qed.

Lemma drop_append (s t : string) : drop (length s) (s ++ t) = t.
Proof. induction s; simpl; auto. Qed.

End TextFacts.

(** ** Facts about the scratch files *)

Module FileFacts.

Import File TextFacts.

Lemma truncate_size (f : file) : length (content (truncate f)) = pos f.
Proof. apply TextFacts.length_resize. Qed.

(** Writing behind a [truncate()] puts the text at the end of the file
    and leaves the position at the end, wherever the file stood. *)
Lemma write_truncate (s : string) (f : file) :
  write s (truncate f) =
  mk (Text.resize (pos f) (content f) ++ s) (pos f + length s).
Proof.
  unfold write, truncate; cbn [content pos]. f_equal.
  rewrite <- (TextFacts.length_resize (pos f) (content f)) at 1.
  rewrite TextFacts.resize_same.
  rewrite TextFacts.drop_all, TextFacts.append_empty_r; [reflexivity|].
  rewrite TextFacts.length_resize. lia.
Qed.

Lemma write_truncate_at_end (s : string) (f : file) :
  pos (write s (truncate f)) = length (content (write s (truncate f))).
Proof.
  rewrite write_truncate; cbn [content pos].
  now rewrite TextFacts.length_append, TextFacts.length_resize.
Qed.

Lemma iter_at_end (f : file) : at_eof f -> iter f = [].
Proof.
  unfold at_eof, iter, unread. intros H. now rewrite TextFacts.drop_all.
Qed.

Lemma iter_write_truncate (s : string) (f : file) : iter (write s (truncate f)) = [].
Proof.
  apply iter_at_end. unfold at_eof. rewrite <- write_truncate_at_end. lia.
Qed.

(** A file that stands at its end keeps its whole text through
    [truncate()], and a write appends to it. *)
Lemma write_truncate_appends (s : string) (f : file) :
  pos f = length (content f) ->
  content (write s (truncate f)) = content f ++ s.
Proof.
  intros H. rewrite write_truncate; cbn [content].
  now rewrite H, TextFacts.resize_same.
Qed.

Lemma advance_0 (f : file) : advance 0 f = f.
Proof. destruct f; unfold advance; cbn. now rewrite Nat.add_0_r. Qed.

Lemma zip_lines_pairs (it1 it2 : list (string * nat)) :
  fst (zip_lines it1 it2) = combine (map fst it1) (map fst it2).
Proof.
  revert it2; induction it1 as [|[l1 n1] it1 IH]; intros [|[l2 n2] it2];
    cbn; try reflexivity.
  specialize (IH it2). destruct (zip_lines it1 it2) as [ps [a b]].
  cbn in *. now rewrite IH.
Qed.

Lemma combine_cut {A B} (l1 : list A) (l2 : list B) :
  combine l1 l2 = combine (firstn (List.length l2) l1) l2.
Proof.
  revert l2; induction l1 as [|x l1 IH]; intros [|y l2]; cbn; try reflexivity.
  now rewrite <- IH.
Qed.

Lemma combine_same {A} (l : list A) : combine l l = map (fun x => (x, x)) l.
Proof. induction l; cbn; congruence. Qed.

End FileFacts.

(** ** Facts about the script *)

Module CheckerFacts.

Import Json File FileFacts Checker Notions.

Lemma report_run (line1 line2 : string) (t : tmp) :
  report (line1, line2) t =
  (if String.eqb line1 line2 then [] else [Print (marker ++ line1)], t, Ok tt).
Proof. unfold report. now destruct (String.eqb line1 line2). Qed.

Lemma for_each_report (pairs : list (string * string)) (t : tmp) :
  for_each pairs report t = (diff_events pairs, t, Ok tt).
Proof.
  induction pairs as [|[l1 l2] ps IH]; [reflexivity|].
  cbn [for_each]. unfold bind. rewrite report_run, IH.
  reflexivity.
Qed.

Lemma compare_lines_run (t : tmp) :
  compare_lines t =
  (diff_events (fst (zip_lines (iter (request_compare_tmp t)) (iter (response_compare_tmp t)))),
   {| request_compare_tmp :=
        advance (fst (snd (zip_lines (iter (request_compare_tmp t)) (iter (response_compare_tmp t)))))
                (request_compare_tmp t);
      response_compare_tmp :=
        advance (snd (snd (zip_lines (iter (request_compare_tmp t)) (iter (response_compare_tmp t)))))
                (response_compare_tmp t) |},
   Ok tt).
Proof.
  unfold compare_lines.
  destruct (zip_lines _ _) as [ps [a b]]. cbn [fst snd].
  apply for_each_report.
Qed.

Lemma compare_lines_events (t : tmp) :
  events (compare_lines t) =
  diff_events (combine (map fst (iter (request_compare_tmp t)))
                       (map fst (iter (response_compare_tmp t)))).
Proof. rewrite compare_lines_run. cbn. now rewrite zip_lines_pairs. Qed.

Lemma write_texts_run (actual expected : json) (t : tmp) :
  write_texts actual (Some expected) t =
  ([], {| request_compare_tmp := write (dumps actual) (truncate (request_compare_tmp t));
          response_compare_tmp := write (dumps expected) (truncate (response_compare_tmp t)) |},
   Ok tt).
Proof. reflexivity. Qed.

Lemma write_texts_not_json (actual : json) (t : tmp) :
  write_texts actual None t =
  ([], {| request_compare_tmp := write (dumps actual) (truncate (request_compare_tmp t));
          response_compare_tmp := truncate (response_compare_tmp t) |},
   Raise JSONDecodeError).
Proof. reflexivity. Qed.

(** The whole comparison of one endpoint: the texts are stored, nothing is
    read back, nothing is printed. *)
Lemma compare_run (actual expected : json) (t : tmp) :
  compare actual (Some expected) t =
  ([], {| request_compare_tmp := write (dumps actual) (truncate (request_compare_tmp t));
          response_compare_tmp := write (dumps expected) (truncate (response_compare_tmp t)) |},
   Ok tt).
Proof.
  unfold compare, bind. rewrite write_texts_run, compare_lines_run.
  cbn [request_compare_tmp response_compare_tmp].
  rewrite !iter_write_truncate. cbn. now rewrite !advance_0.
Qed.

Lemma compare_not_json (actual : json) (t : tmp) :
  compare actual None t =
  ([], {| request_compare_tmp := write (dumps actual) (truncate (request_compare_tmp t));
          response_compare_tmp := truncate (response_compare_tmp t) |},
   Raise JSONDecodeError).
Proof. reflexivity. Qed.

Lemma compare_events (actual : json) (fixture_text : option json) (t : tmp) :
  events (compare actual fixture_text t) = [].
Proof.
  destruct fixture_text; [now rewrite compare_run | now rewrite compare_not_json].
Qed.

(** *** An invariant of every run

    Nothing but the banner is ever printed, and a post the transport
    fails on is the last thing a run does. *)

Section Orderly.

Variable w : world.

Local Abbreviation orderly := (Notions.orderly w).

Lemma orderly_quiet {A} (t : tmp) (r : result A) : orderly (@nil event, t, r).
Proof.
  split; [constructor|]. destruct r; cbn; [|left]; constructor.
Qed.

Lemma bind_orderly {A B} (m : M A) (k : A -> M B) :
  (forall t, orderly (m t)) -> (forall a t, orderly (k a t)) ->
  forall t, orderly (bind m k t).
Proof.
  intros Hm Hk t. unfold bind.
  specialize (Hm t). destruct (m t) as [[ev t1] [a|e]]; [|exact Hm].
  specialize (Hk a t1). destruct (k a t1) as [[ev' t2] r].
  destruct Hm as [Hs Hv], Hk as [Hs' Hv']. unfold orderly, events, outcome in *.
  cbn [fst snd] in *. split; [now apply Forall_app|].
  destruct r as [b|e].
  - now apply Forall_app.
  - destruct Hv' as [Hv'|(ev0 & u & b & -> & H0 & He)].
    + left. now apply Forall_app.
    + right. exists (ev ++ ev0)%list, u, b. rewrite app_assoc.
      repeat split; [now apply Forall_app | exact He].
Qed.

Lemma for_each_orderly {A} (body : A -> M unit) :
  (forall x t, orderly (body x t)) ->
  forall l t, orderly (for_each l body t).
Proof.
  intros Hb l. induction l as [|x xs IH]; intros t.
  - apply orderly_quiet.
  - cbn [for_each]. apply bind_orderly; auto.
Qed.

Lemma call_microservice_run (p : payload_dict) (t : tmp) :
  call_microservice w p t =
  ([Log ("Sending request to " ++ url p); Post (url p) (payload p)], t,
   match network w (url p) (payload p) with
   | NoReply => Raise ConnectionError
   | Reply _ None => Raise ResponseJSONDecodeError
   | Reply _ (Some j) => Ok j
   end).
Proof.
  unfold call_microservice, requests_post, response_json, bind, emit.
  destruct (network w (url p) (payload p)) as [|status [j|]]; reflexivity.
Qed.

Lemma call_microservice_orderly (p : payload_dict) (t : tmp) :
  orderly (call_microservice w p t).
Proof.
  rewrite call_microservice_run. split.
  - repeat constructor.
  - unfold outcome, events; cbn [fst snd].
    destruct (network w (url p) (payload p)) as [|status [j|]] eqn:E.
    + right. exists [Log ("Sending request to " ++ url p)], (url p), (payload p).
      rewrite E. repeat split. repeat constructor.
    + repeat constructor. cbn. now rewrite E.
    + right. exists [Log ("Sending request to " ++ url p)], (url p), (payload p).
      rewrite E. repeat split. repeat constructor.
Qed.

Lemma compare_orderly (actual : json) (fixture_text : option json) (t : tmp) :
  orderly (compare actual fixture_text t).
Proof.
  destruct fixture_text;
    [rewrite compare_run | rewrite compare_not_json]; apply orderly_quiet.
Qed.

Lemma open_orderly (path : string) (t : tmp) : orderly (open_ w path t).
Proof. unfold open_. destruct (disk w path); apply orderly_quiet. Qed.

Lemma json_load_orderly (parsed : option json) (t : tmp) : orderly (json_load parsed t).
Proof. destruct parsed; apply orderly_quiet. Qed.

Lemma check_endpoint_orderly (base endpoint : string) (t : tmp) :
  orderly (check_endpoint w base endpoint t).
Proof.
  unfold check_endpoint. revert t.
  apply bind_orderly; [apply open_orderly | intros request].
  apply bind_orderly; [apply open_orderly | intros expected_response_file].
  apply bind_orderly; [apply json_load_orderly | intros body].
  apply bind_orderly; [apply call_microservice_orderly | intros response].
  apply compare_orderly.
Qed.

Lemma check_microservice_skip (name base : string) (e : exn) (t : tmp) :
  config_get w name "endpoints" = Raise e ->
  check_microservice w (name, base) t = ([], t, Ok tt).
Proof.
  intros H. unfold check_microservice, try_except, bind, lift. now rewrite H.
Qed.

Lemma check_microservice_resolved (name base v : string) (t : tmp) :
  config_get w name "endpoints" = Ok v ->
  check_microservice w (name, base) t =
  for_each (map Text.strip (Text.split "," v)) (check_endpoint w base) t.
Proof.
  intros H. unfold check_microservice, try_except, bind, lift. rewrite H.
  cbn. now destruct (for_each _ _ t) as [[ev t'] r].
Qed.

Lemma check_microservice_orderly (item : string * string) (t : tmp) :
  orderly (check_microservice w item t).
Proof.
  destruct item as [name base].
  destruct (config_get w name "endpoints") as [v|e] eqn:E.
  - rewrite (check_microservice_resolved _ _ _ _ E).
    apply for_each_orderly. intros; apply check_endpoint_orderly.
  - rewrite (check_microservice_skip _ _ _ _ E). apply orderly_quiet.
Qed.

Lemma check_environment_orderly (env : string) (t : tmp) :
  orderly (check_environment w env t).
Proof.
  unfold check_environment.
  apply bind_orderly.
  - intros t'. apply orderly_quiet.
  - intros items t'. apply for_each_orderly. intros; apply check_microservice_orderly.
Qed.

End Orderly.

(** *** The run as a whole *)

Lemma run_unknown (w : world) (typed : string) :
  known (Text.lower typed) = false ->
  run w typed = ([Print banner; Prompt prompt], no_tmp, Ok tt).
Proof.
  intros H. unfold run, main, bind, emit. now rewrite H.
Qed.

Lemma run_known (w : world) (typed : string) :
  known (Text.lower typed) = true ->
  run w typed =
  (Print banner :: Prompt prompt :: events (check_environment w (Text.lower typed) no_tmp),
   files (check_environment w (Text.lower typed) no_tmp),
   outcome (check_environment w (Text.lower typed) no_tmp)).
Proof.
  intros H. unfold run, main, bind, emit. rewrite H. cbn [negb].
  now destruct (check_environment w (Text.lower typed) no_tmp) as [[ev t] r].
Qed.

Lemma run_orderly (w : world) (typed : string) :
  exists evs,
    events (run w typed) = Print banner :: Prompt prompt :: evs /\
    orderly w (evs, files (run w typed), outcome (run w typed)).
Proof.
  destruct (known (Text.lower typed)) eqn:K.
  - rewrite (run_known _ _ K). eexists; split; [reflexivity|].
    pose proof (check_environment_orderly w (Text.lower typed) no_tmp) as H.
    now destruct (check_environment w (Text.lower typed) no_tmp) as [[ev t] r].
  - rewrite (run_unknown _ _ K). eexists; split; [reflexivity|].
    apply orderly_quiet.
Qed.

Lemma for_each_skip {A} (body : A -> M unit) (x : A) :
  (forall t, body x t = ([], t, Ok tt)) ->
  forall pre rest t,
    for_each (pre ++ x :: rest) body t = for_each (pre ++ rest) body t.
Proof.
  intros Hx pre rest. induction pre as [|y pre IH]; intros t.
  - cbn [app for_each]. unfold bind. rewrite Hx.
    now destruct (for_each rest body t) as [[ev t'] r].
  - cbn [app for_each]. unfold bind.
    destruct (body y t) as [[ev t1] [a|e]]; [|reflexivity].
    now rewrite IH.
Qed.

(** A failing post can only be the last event of a trace that ends with
    one and is served before it. *)
Lemma served_last (w : world) (ev0 pre post : list event) (x : event) (u : string) (b : json) :
  served w ev0 ->
  (ev0 ++ [x])%list = (pre ++ Post u b :: post)%list ->
  transport_error (network w u b) <> None ->
  post = [] /\ x = Post u b.
Proof.
  intros Hs Heq Hf.
  destruct (exists_last (l := Post u b :: post)) as (l' & z & Hl); [discriminate|].
  rewrite Hl, app_assoc in Heq. apply app_inj_tail in Heq as [-> ->].
  destruct post as [|y post].
  - destruct l'; [now inversion Hl | destruct l'; discriminate].
  - exfalso. destruct l' as [|y' l']; [destruct post; discriminate|].
    inversion Hl; subst y'.
    apply Forall_app in Hs as [_ Hs]. inversion Hs as [|? ? Hp _]. now apply Hf.
Qed.

End CheckerFacts.

(** ** Properties of the comparison and of the run *)

Module Properties.

Import Json File Checker Notions Scenario Worlds TextFacts FileFacts CheckerFacts.

Lemma silent_no_print (evs : list event) : silent evs -> filter is_print evs = [].
Proof.
  induction 1 as [|e evs He _ IH]; [reflexivity|].
  cbn [filter]. now rewrite He.
Qed.


Lemma diff_events_same (l : list string) : diff_events (combine l l) = [].
Proof.
  induction l as [|x l IH]; [reflexivity|].
  unfold diff_events in *. cbn [combine flat_map fst snd].
  now rewrite String.eqb_refl, IH.
Qed.

Lemma iter_rewound (s : string) : iter (mk s 0) = readlines s.
Proof. reflexivity. Qed.



(** The text of [{"status": "ok"}]: three lines, the last one without a
    line end. *)
Example dumps_status_ok :
  lines (dumps (status "ok")) =
  [String "{" (String Text.LF "");
   "    " ++ quote ++ "status" ++ quote ++ ": " ++ quote ++ "ok" ++ quote ++ String Text.LF "";
   "}"].
Proof. reflexivity. Qed.

(** An [endpoints] key with an empty value is resolved, to the one endpoint
    with the empty path. *)
Example empty_endpoints_value : map Text.strip (Text.split "," "") = [""].
Proof. reflexivity. Qed.

Example spaced_endpoints_value :
  map Text.strip (Text.split "," "/list, /count ") = ["/list"; "/count"].
Proof. reflexivity. Qed.

(** *** The comparison of one endpoint *)

(** C3: for every actual and expected value and whatever the two scratch
    files hold, once the two texts are written both files stand at their
    end (nothing rewinds them, and [truncate()] cuts at the position the
    file stands at), the loop over the zipped files gets no pair of lines,
    and the comparison prints nothing; in a whole run the banner is the only
    thing ever printed. *)
Theorem scratch_files_never_read_back (actual expected : json) (t : tmp) :
  let t' := files (write_texts actual (Some expected) t) in
  pos (request_compare_tmp t') = length (content (request_compare_tmp t')) /\
  pos (response_compare_tmp t') = length (content (response_compare_tmp t')) /\
  zip_lines (iter (request_compare_tmp t')) (iter (response_compare_tmp t')) = ([], (0, 0)) /\
  events (compare actual (Some expected) t) = [] /\
  (forall w typed, filter is_print (events (run w typed)) = [Print banner]).
Proof.
  rewrite write_texts_run. cbn [files fst snd request_compare_tmp response_compare_tmp].
  repeat split.
  - apply write_truncate_at_end.
  - apply write_truncate_at_end.
  - now rewrite !iter_write_truncate.
  - apply compare_events.
  - intros w typed. destruct (run_orderly w typed) as (evs & -> & Hs & _).
    cbn [filter is_print]. f_equal. now apply silent_no_print.
Qed.

(** C4: comparing a value against itself prints nothing, from whatever the
    scratch files hold; and the loop of lines 66 to 68, run on two files that
    hold the text of the same value and stand at their start, prints nothing
    either. *)
Theorem same_value_never_reported (a : json) (t : tmp) :
  events (compare a (Some a) t) = [] /\
  events (compare_lines (rewound (dumps a) (dumps a))) = [].
Proof.
  split; [apply compare_events|].
  rewrite compare_lines_events. apply diff_events_same.
Qed.

(** C5: when the text of the actual value has more lines than the text of
    the expected one, the comparison pairs no more lines than the shorter
    text has and prints nothing; and the loop of lines 66 to 68, run on the
    two texts from their start, pairs exactly as many lines as the shorter
    text has, so that its reports are those of the actual text cut to that
    many lines: the lines behind them yield no report. *)
Theorem extra_lines_never_reported (actual expected : json) (t : tmp) :
  List.length (lines (dumps expected)) < List.length (lines (dumps actual)) ->
  let t' := files (write_texts actual (Some expected) t) in
  let n := List.length (lines (dumps expected)) in
  List.length (fst (zip_lines (iter (request_compare_tmp t')) (iter (response_compare_tmp t')))) <= n /\
  events (compare actual (Some expected) t) = [] /\
  List.length (fst (zip_lines (readlines (dumps actual)) (readlines (dumps expected)))) = n /\
  events (compare_lines (rewound (dumps actual) (dumps expected))) =
    diff_events (combine (firstn n (lines (dumps actual))) (lines (dumps expected))).
Proof.
  intros Hlen t' n. subst t'. rewrite write_texts_run.
  cbn [files fst snd request_compare_tmp response_compare_tmp].
  repeat split.
  - rewrite !iter_write_truncate. cbn. lia.
  - apply compare_events.
  - rewrite zip_lines_pairs, length_combine. fold (lines (dumps actual)) (lines (dumps expected)).
    subst n. lia.
  - rewrite compare_lines_events. cbn [rewound request_compare_tmp response_compare_tmp].
    rewrite !iter_rewound. fold (lines (dumps actual)) (lines (dumps expected)).
    subst n. now rewrite <- combine_cut.
Qed.

Lemma extra_lines_never_reported_witness :
  List.length (lines (dumps (status "ok"))) < List.length (lines (dumps longer)) /\
  List.length (fst (zip_lines (readlines (dumps longer)) (readlines (dumps (status "ok"))))) = 3 /\
  events (compare_lines (rewound (dumps longer) (dumps (status "ok")))) =
    diff_events (combine (firstn 3 (lines (dumps longer))) (lines (dumps (status "ok")))).
Proof.
  assert (H : List.length (lines (dumps (status "ok"))) < List.length (lines (dumps longer)))
    by (vm_compute; lia).
  split; [exact H|].
  destruct (extra_lines_never_reported longer (status "ok") no_tmp H) as (_ & _ & H3 & H4).
  split; [exact H3 | exact H4].
Defined.





(** The loop does report when the files stand at their start: the second
    lines of the two texts differ and the one of the actual side is
    printed. *)
Example rewound_files_report :
  events (compare_lines (rewound (dumps (status "fail")) (dumps (status "ok")))) =
  [Print (marker ++ nth 1 (lines (dumps (status "fail"))) "")].
Proof. vm_compute. reflexivity. Qed.

(** C1: the texts of [{"status": "fail"}] and [{"status": "ok"}] differ at
    their second line, and the comparison of the two values prints
    nothing. *)
Theorem differing_line_not_reported :
  nth_error (lines (dumps (status "fail"))) 1 <> nth_error (lines (dumps (status "ok"))) 1 /\
  forall t, events (compare (status "fail") (Some (status "ok")) t) = [].
Proof.
  split; [vm_compute; discriminate|].
  intros t. apply compare_events.
Qed.

(** C6: after the run over two endpoints both scratch files hold the texts
    of the first endpoint with the texts of the second behind them; in
    general a comparison on files that stand at the end of earlier texts
    keeps those texts and appends the new ones: [truncate()] is called where
    the files stand, which is their end. *)
Theorem earlier_texts_stay_in_scratch_files :
  content (request_compare_tmp (files (run two_endpoints "test"))) =
    dumps (status "ok") ++ dumps total /\
  content (response_compare_tmp (files (run two_endpoints "test"))) =
    dumps (status "ok") ++ dumps total /\
  forall actual expected earlier1 earlier2,
    files (compare actual (Some expected)
             {| request_compare_tmp := mk earlier1 (length earlier1);
                response_compare_tmp := mk earlier2 (length earlier2) |}) =
    {| request_compare_tmp :=
         mk (earlier1 ++ dumps actual) (length earlier1 + length (dumps actual));
       response_compare_tmp :=
         mk (earlier2 ++ dumps expected) (length earlier2 + length (dumps expected)) |}.
Proof.
  split; [vm_compute; reflexivity|].
  split; [vm_compute; reflexivity|].
  intros actual expected earlier1 earlier2. rewrite compare_run.
  cbn [files fst snd request_compare_tmp response_compare_tmp].
  rewrite !write_truncate. cbn [content pos]. now rewrite !resize_same.
Qed.

(** *** The run *)

(** C2: in the scenario of the specification the run prints no report when
    the service replies [{"status": "ok"}], and none either when it replies
    [{"status": "fail"}]: the whole trace is the banner, the prompt, the log
    line and the post. *)
Theorem scenario_reports_nothing :
  events (run (scenario (Reply 200 (Some (status "ok")))) "test") =
    [Print banner; Prompt prompt; Log "Sending request to http://svc//list";
     Post "http://svc//list" request_body] /\
  events (run (scenario (Reply 200 (Some (status "fail")))) "test") =
    [Print banner; Prompt prompt; Log "Sending request to http://svc//list";
     Post "http://svc//list" request_body] /\
  outcome (run (scenario (Reply 200 (Some (status "fail")))) "test") = Ok tt.
Proof. repeat split; vm_compute; reflexivity. Qed.

Lemma known_spec (env : string) :
  known env = true <-> env = "svil" \/ env = "test" \/ env = "prod".
Proof.
  unfold known, environments. cbn [existsb].
  rewrite !orb_true_iff, !String.eqb_eq. intuition discriminate.
Qed.

(** C7: for a name whose lower-case form is not one of [svil], [test],
    [prod], the run ends normally with the reading of the name: its trace is
    the banner and the prompt, which come before the name is read, and
    nothing comes behind the prompt, no post, no log line and no report.  A
    name whose lower-case form is in the set goes on to the checks of that
    environment, and the run depends on the name only through its lower-case
    form. *)
Theorem environment_gate (w : world) (typed : string) :
  (known (Text.lower typed) = false ->
   run w typed = ([Print banner; Prompt prompt], no_tmp, Ok tt) /\
   after_prompt (events (run w typed)) = []) /\
  (known (Text.lower typed) = true ->
   run w typed =
   (Print banner :: Prompt prompt :: events (check_environment w (Text.lower typed) no_tmp),
    files (check_environment w (Text.lower typed) no_tmp),
    outcome (check_environment w (Text.lower typed) no_tmp))) /\
  (forall typed', Text.lower typed' = Text.lower typed -> run w typed' = run w typed).
Proof.
  split; [intros K; now rewrite (run_unknown w typed K)|].
  split; [apply run_known|].
  intros typed' H. unfold run, main, bind, emit. now rewrite H.
Qed.

Lemma environment_gate_witness :
  known (Text.lower "Staging") = false /\
  (run (scenario NoReply) "Staging" = ([Print banner; Prompt prompt], no_tmp, Ok tt) /\
   after_prompt (events (run (scenario NoReply) "Staging")) = []) /\
  known (Text.lower "TeSt") = true /\
  run (scenario NoReply) "TeSt" =
   (Print banner :: Prompt prompt :: events (check_environment (scenario NoReply) (Text.lower "TeSt") no_tmp),
    files (check_environment (scenario NoReply) (Text.lower "TeSt") no_tmp),
    outcome (check_environment (scenario NoReply) (Text.lower "TeSt") no_tmp)) /\
  run (scenario NoReply) "TEST" = run (scenario NoReply) "TeSt".
Proof.
  split; [reflexivity|].
  split; [apply (proj1 (environment_gate (scenario NoReply) "Staging")); reflexivity|].
  split; [reflexivity|].
  split; [apply (proj1 (proj2 (environment_gate (scenario NoReply) "TeSt"))); reflexivity|].
  apply (proj2 (proj2 (environment_gate (scenario NoReply) "TeSt"))); reflexivity.
Defined.

(** C8, as stated, fails for a value that is malformed but returned: the
    [endpoints] key of [billing] has an empty value, the lookup returns it,
    the one endpoint it gives has the empty path, and the run ends with the
    [FileNotFoundError] of its request fixture before [orders], the next
    entry, is looked at. *)
Lemma blank_endpoints_value_ends_run :
  config_get blank_endpoints "billing" "endpoints" = Ok "" /\
  run blank_endpoints "test" = ([Print banner; Prompt prompt], no_tmp, Raise FileNotFoundError).
Proof. split; [reflexivity | vm_compute; reflexivity]. Qed.

(** C8, amended: a microservice whose [endpoints] lookup raises, for
    whatever reason (no section, no key, a value that cannot be expanded),
    causes no event, leaves the scratch files alone and raises nothing; the
    loop over the microservices runs as if the entry were not in the list,
    and goes on with the entry behind it: with the state the skipped entry
    found, the check of the next entry is what comes next, and the entries
    behind that one follow. *)
Theorem unresolved_microservice_skipped
    (w : world) (name base : string) (e : exn)
    (before after : list (string * string)) (t : tmp) :
  config_get w name "endpoints" = Raise e ->
  check_microservice w (name, base) t = ([], t, Ok tt) /\
  for_each (before ++ (name, base) :: after) (check_microservice w) t =
  for_each (before ++ after) (check_microservice w) t /\
  (forall next rest,
      for_each ((name, base) :: next :: rest) (check_microservice w) t =
      bind (check_microservice w next) (fun _ => for_each rest (check_microservice w)) t) /\
  (forall next,
      events (for_each [(name, base); next] (check_microservice w) t) =
        events (check_microservice w next t) /\
      files (for_each [(name, base); next] (check_microservice w) t) =
        files (check_microservice w next t) /\
      outcome (for_each [(name, base); next] (check_microservice w) t) =
        outcome (check_microservice w next t)).
Proof.
  intros H.
  pose proof (fun t' => check_microservice_skip w name base e t' H) as Hskip.
  split; [apply Hskip|]. split; [now apply for_each_skip|]. split.
  - intros next rest. cbn [for_each]. unfold bind at 1. rewrite Hskip.
    unfold bind. destruct (check_microservice w next t) as [[ev t1] [a|e1]]; [|reflexivity].
    now destruct (for_each rest (check_microservice w) t1) as [[ev' t2] r].
  - intros next. cbn [for_each]. unfold bind, ret. rewrite Hskip.
    destruct (check_microservice w next t) as [[ev t1] [[]|e1]]; cbn;
      now rewrite ?app_nil_r.
Qed.

Lemma unresolved_microservice_skipped_witness :
  config_get with_unresolved "billing" "endpoints" = Raise NoSectionError /\
  events (for_each [("billing", "http://bill/"); ("orders", "http://svc/")]
            (check_microservice with_unresolved) no_tmp) =
    events (check_microservice with_unresolved ("orders", "http://svc/") no_tmp) /\
  events (check_microservice with_unresolved ("orders", "http://svc/") no_tmp) =
    [Log "Sending request to http://svc//list"; Post "http://svc//list" request_body] /\
  check_microservice with_unresolved ("billing", "http://bill/") no_tmp = ([], no_tmp, Ok tt).
Proof.
  assert (H : config_get with_unresolved "billing" "endpoints" = Raise NoSectionError)
    by reflexivity.
  destruct (unresolved_microservice_skipped with_unresolved "billing" "http://bill/"
              NoSectionError [] [("orders", "http://svc/")] no_tmp H)
    as (Hskip & _ & _ & Hnext).
  split; [exact H|].
  split; [exact (proj1 (Hnext ("orders", "http://svc/")))|].
  split; [vm_compute; reflexivity | exact Hskip].
Defined.

Lemma served_post (w : world) (evs pre post : list event) (u : string) (b : json) :
  served w evs -> evs = (pre ++ Post u b :: post)%list ->
  transport_error (network w u b) = None.
Proof.
  intros Hs ->. apply Forall_app in Hs as [_ Hs]. now inversion Hs.
Qed.

(** C9, as stated, fails: a reply with status 500 and a JSON body raises
    nothing; its body is returned and the run ends normally. *)
Lemma server_error_with_json_body_is_compared :
  ~ (200 <= 500 < 300) /\
  (forall t, outcome (call_microservice (scenario (Reply 500 (Some (status "fail"))))
                        {| url := "http://svc//list"; payload := request_body |} t)
             = Ok (status "fail")) /\
  outcome (run (scenario (Reply 500 (Some (status "fail")))) "test") = Ok tt.
Proof.
  split; [lia|]. split; [intros t; reflexivity | vm_compute; reflexivity].
Qed.

(** C9, amended: when a post of a run meets no reply, or a reply whose body
    is not JSON, that post is the last event of the run and the run ends with
    the exception of the transport (no later endpoint or microservice is
    tried); when it meets a reply with a JSON body, whatever its status code,
    [call_microservice] raises nothing and returns the body. *)
Theorem transport_failure_aborts_run
    (w : world) (typed : string) (pre post : list event) (u : string) (b : json) :
  events (run w typed) = (pre ++ Post u b :: post)%list ->
  match network w u b with
  | NoReply => post = [] /\ outcome (run w typed) = Raise ConnectionError
  | Reply _ None => post = [] /\ outcome (run w typed) = Raise ResponseJSONDecodeError
  | Reply _ (Some j) =>
      forall t, call_microservice w {| url := u; payload := b |} t =
                ([Log ("Sending request to " ++ u); Post u b], t, Ok j)
  end.
Proof.
  intros Hev.
  assert (Hfail : forall e, transport_error (network w u b) = Some e ->
                            post = [] /\ outcome (run w typed) = Raise e).
  { intros e He.
    destruct (run_orderly w typed) as (evs & Hrun & _ & Hout).
    unfold events, outcome in Hout; cbn [fst snd] in Hout. fold (outcome (run w typed)) in Hout.
    assert (Hnone : served w (Print banner :: Prompt prompt :: evs) -> False).
    { intros Hs. rewrite Hrun in Hev.
      pose proof (served_post _ _ _ _ _ _ Hs Hev) as Hn. congruence. }
    destruct (outcome (run w typed)) as [[]|e'].
    - exfalso. apply Hnone. repeat constructor. exact Hout.
    - destruct Hout as [Hs|(ev0 & u' & b' & -> & Hs & He')].
      + exfalso. apply Hnone. repeat constructor. exact Hs.
      + rewrite Hrun in Hev.
        assert (Hs' : served w (Print banner :: Prompt prompt :: ev0))
          by (repeat constructor; exact Hs).
        change (Print banner :: Prompt prompt :: ev0 ++ [Post u' b'])%list
          with ((Print banner :: Prompt prompt :: ev0) ++ [Post u' b'])%list in Hev.
        destruct (served_last w _ _ _ _ _ _ Hs' Hev) as [Hp Hx]; [congruence|].
        inversion Hx; subst u' b'. split; [exact Hp | congruence]. }
  destruct (network w u b) as [|status [j|]] eqn:E.
  - apply Hfail. reflexivity.
  - intros t. rewrite call_microservice_run. cbn [url payload]. now rewrite E.
  - apply Hfail. reflexivity.
Qed.

Lemma transport_failure_aborts_run_witness :
  events (run (scenario NoReply) "test") =
    ([Print banner; Prompt prompt; Log "Sending request to http://svc//list"]
       ++ Post "http://svc//list" request_body :: [])%list /\
  ([] : list event) = [] /\ outcome (run (scenario NoReply) "test") = Raise ConnectionError.
Proof.
  split; [vm_compute; reflexivity|].
  apply (transport_failure_aborts_run (scenario NoReply) "test"
           [Print banner; Prompt prompt; Log "Sending request to http://svc//list"] []
           "http://svc//list" request_body).
  vm_compute; reflexivity.
Defined.

End Properties.

(** ** Further properties of the script *)

Module Extras.

Import Json File Checker Notions Scenario Traces Worlds TextFacts FileFacts CheckerFacts.

(** What the check of one endpoint does, case by case, in the order in
    which the script meets the cases. *)
Lemma check_endpoint_run (w : world) (base endpoint : string) (t : tmp) :
  check_endpoint w base endpoint t =
  match disk w (request_path endpoint) with
  | Absent => ([], t, Raise FileNotFoundError)
  | Present request =>
      match disk w (response_path endpoint) with
      | Absent => ([], t, Raise FileNotFoundError)
      | Present expected_response_file =>
          match request with
          | None => ([], t, Raise JSONDecodeError)
          | Some body =>
              match network w (base ++ endpoint) body with
              | NoReply => (call_events (base ++ endpoint) body, t, Raise ConnectionError)
              | Reply _ None =>
                  (call_events (base ++ endpoint) body, t, Raise ResponseJSONDecodeError)
              | Reply _ (Some response) =>
                  (call_events (base ++ endpoint) body,
                   files (compare response expected_response_file t),
                   outcome (compare response expected_response_file t))
              end
          end
      end
  end.
Proof.
  unfold check_endpoint, request_path, response_path, open_, bind.
  destruct (disk w ("requests" ++ endpoint ++ ".json")) as [|request]; [reflexivity|].
  destruct (disk w ("responses" ++ endpoint ++ ".json")) as [|expected]; [reflexivity|].
  cbn [ret raise]. destruct request as [body|]; [|reflexivity].
  cbn [json_load ret]. rewrite call_microservice_run. cbn [url payload]. cbn [app].
  destruct (network w (base ++ endpoint) body) as [|status [response|]]; try reflexivity.
  pose proof (compare_events response expected t) as He.
  destruct (compare response expected t) as [[ev t'] r]. cbn in He. subst ev.
  reflexivity.
Qed.

(** *** Invariants of loops and runs *)

Section Preservation.

Variable P : list event -> tmp -> Prop.

Lemma preserves_still {A} (m : M A) :
  (forall t, events (m t) = [] /\ files (m t) = t) -> preserves P m.
Proof.
  intros H h t Hp. destruct (H t) as [-> ->]. now rewrite app_nil_r.
Qed.

Lemma preserves_bind {A B} (m : M A) (k : A -> M B) :
  preserves P m -> (forall a, preserves P (k a)) -> preserves P (bind m k).
Proof.
  intros Hm Hk h t Hp. specialize (Hm h t Hp). unfold bind.
  destruct (m t) as [[ev t1] [a|e]]; [|exact Hm].
  specialize (Hk a (h ++ ev)%list t1 Hm).
  destruct (k a t1) as [[ev' t2] r]. unfold events, files in *; cbn [fst snd] in *.
  now rewrite app_assoc.
Qed.

Lemma preserves_for_each {A} (body : A -> M unit) (l : list A) :
  (forall x, In x l -> preserves P (body x)) -> preserves P (for_each l body).
Proof.
  induction l as [|x xs IH]; intros H.
  - apply preserves_still. now intros t.
  - cbn [for_each]. apply preserves_bind; [apply H; now left|].
    intros _. apply IH. intros y Hy. apply H. now right.
Qed.

Lemma preserves_check_microservice (w : world) (name base : string) :
  (forall value endpoint,
      config_get w name "endpoints" = Ok value ->
      In endpoint (endpoints_of value) ->
      preserves P (check_endpoint w base endpoint)) ->
  preserves P (check_microservice w (name, base)).
Proof.
  intros H h t Hp.
  destruct (config_get w name "endpoints") as [value|e] eqn:E.
  - rewrite (check_microservice_resolved w _ _ _ _ E).
    apply preserves_for_each; [|exact Hp]. intros endpoint Hin. now apply (H value).
  - rewrite (check_microservice_skip w _ _ _ _ E). cbn. now rewrite app_nil_r.
Qed.

End Preservation.

Lemma run_cases (w : world) (typed : string) :
  run w typed =
  if known (Text.lower typed) then
    match config_items w ("urls-" ++ Text.lower typed) with
    | Raise e => ([Print banner; Prompt prompt], no_tmp, Raise e)
    | Ok items =>
        (Print banner :: Prompt prompt :: events (for_each items (check_microservice w) no_tmp),
         files (for_each items (check_microservice w) no_tmp),
         outcome (for_each items (check_microservice w) no_tmp))
    end
  else ([Print banner; Prompt prompt], no_tmp, Ok tt).
Proof.
  destruct (known (Text.lower typed)) eqn:K; [|now apply run_unknown].
  rewrite (run_known _ _ K). unfold check_environment, bind, lift. fold no_tmp.
  destruct (config_items w ("urls-" ++ Text.lower typed)) as [items|e]; [|reflexivity].
  now destruct (for_each items (check_microservice w) no_tmp) as [[ev t] r].
Qed.

(** A property that holds after the banner and the prompt and that the
    check of every microservice of the catalogue keeps, holds at the end of
    the run. *)
Lemma run_invariant (P : list event -> tmp -> Prop) (w : world) (typed : string) :
  P [Print banner; Prompt prompt] no_tmp ->
  (forall items item,
      known (Text.lower typed) = true ->
      config_items w ("urls-" ++ Text.lower typed) = Ok items ->
      In item items -> preserves P (check_microservice w item)) ->
  P (events (run w typed)) (files (run w typed)).
Proof.
  intros H0 Hstep. rewrite run_cases.
  destruct (known (Text.lower typed)) eqn:K; [|exact H0].
  destruct (config_items w ("urls-" ++ Text.lower typed)) as [items|e] eqn:E; [|exact H0].
  cbn [events files fst snd].
  apply (preserves_for_each P (check_microservice w) items
           (fun item Hin => Hstep items item eq_refl eq_refl Hin)
           [Print banner; Prompt prompt] no_tmp H0).
Qed.

(** The events of one endpoint check: none, or the log line and the
    post of a call whose body is the request fixture, both fixture files
    being there. *)
Lemma check_endpoint_events (w : world) (base endpoint : string) (t : tmp) :
  events (check_endpoint w base endpoint t) = [] \/
  exists body,
    disk w (request_path endpoint) = Present (Some body) /\
    disk w (response_path endpoint) <> Absent /\
    events (check_endpoint w base endpoint t) = call_events (base ++ endpoint) body.
Proof.
  rewrite check_endpoint_run.
  destruct (disk w (request_path endpoint)) as [|[body|]]; try (now left);
    destruct (disk w (response_path endpoint)) as [|expected]; try (now left).
  right. exists body. repeat split; [discriminate|].
  now destruct (network w (base ++ endpoint) body) as [|status [response|]].
Qed.

Lemma announced_app (h ev : list event) :
  announced h = true -> announced ev = true -> announced (h ++ ev) = true.
Proof.
  intros Hh Hev. remember (List.length h) as n eqn:Hn.
  assert (Hle : List.length h <= n) by lia. clear Hn.
  revert h Hh Hle. induction n as [|n IH]; intros h Hh Hle.
  - destruct h; [exact Hev | cbn in Hle; lia].
  - destruct h as [|e h]; [exact Hev|].
    destruct e as [text|text|m|u b]; cbn [announced app] in *.
    + apply IH; [exact Hh | cbn in Hle; lia].
    + apply IH; [exact Hh | cbn in Hle; lia].
    + destruct h as [|e2 h2]; [discriminate|].
      destruct e2 as [text|text|m2|u b]; try discriminate.
      cbn [app]. apply andb_true_iff in Hh as [Hm Hrest].
      rewrite Hm. cbn [andb]. apply IH; [exact Hrest | cbn in Hle; lia].
    + discriminate.
Qed.

Lemma announced_post (h : list event) :
  announced h = true ->
  forall pre u b post,
    h = (pre ++ Post u b :: post)%list ->
    exists pre', pre = (pre' ++ [Log ("Sending request to " ++ u)])%list.
Proof.
  remember (List.length h) as n eqn:Hn.
  assert (Hle : List.length h <= n) by lia. clear Hn.
  revert h Hle. induction n as [|n IH]; intros h Hle Hh pre u b post Heq.
  - subst h. rewrite length_app in Hle. cbn in Hle. lia.
  - destruct h as [|e h]; [now destruct pre|].
    destruct e as [text|text|m|u' b']; cbn [announced] in Hh.
    + destruct pre as [|e1 pre1]; [discriminate|]. inversion Heq; subst e1.
      assert (Hl : List.length h <= n) by (cbn in Hle; lia).
      destruct (IH h Hl Hh pre1 u b post H1) as [pre' ->].
      now exists (Print text :: pre').
    + destruct pre as [|e1 pre1]; [discriminate|]. inversion Heq; subst e1.
      assert (Hl : List.length h <= n) by (cbn in Hle; lia).
      destruct (IH h Hl Hh pre1 u b post H1) as [pre' ->].
      now exists (Prompt text :: pre').
    + destruct h as [|e2 h2]; [discriminate|].
      destruct e2 as [text|text|m2|u' b']; try discriminate.
      apply andb_true_iff in Hh as [Hm Hrest]. apply String.eqb_eq in Hm.
      destruct pre as [|e1 pre1]; [discriminate|]. inversion Heq; subst e1.
      destruct pre1 as [|e2 pre2].
      * cbn in H1. inversion H1; subst. now exists [].
      * cbn in H1. inversion H1; subst e2.
        assert (Hl : List.length h2 <= n) by (cbn in Hle; lia).
        destruct (IH h2 Hl Hrest pre2 u b post H2) as [pre' ->].
        now exists (Log m :: Post u' b' :: pre').
    + discriminate.
Qed.

(** X1: in every run each post comes right behind the log line that names
    its URL, and each log line is followed by its post: beside the banner
    and the prompt a trace is made of such pairs only. *)
Theorem every_post_is_announced (w : world) (typed : string) :
  announced (events (run w typed)) = true /\
  forall pre u b post,
    events (run w typed) = (pre ++ Post u b :: post)%list ->
    exists pre', pre = (pre' ++ [Log ("Sending request to " ++ u)])%list.
Proof.
  assert (H : announced (events (run w typed)) = true).
  { apply (run_invariant (fun h _ => announced h = true)); [reflexivity|].
    intros items [name base] _ _ _. apply preserves_check_microservice.
    intros value endpoint _ _ h t Hh.
    apply announced_app; [exact Hh|].
    destruct (check_endpoint_events w base endpoint t) as [->|(body & _ & _ & ->)];
      [reflexivity|].
    unfold call_events. cbn [announced]. now rewrite String.eqb_refl. }
  split; [exact H | now apply announced_post].
Qed.

Lemma every_post_is_announced_witness :
  events (run (scenario NoReply) "test") =
    ([Print banner; Prompt prompt; Log "Sending request to http://svc//list"]
       ++ Post "http://svc//list" request_body :: [])%list /\
  exists pre',
    [Print banner; Prompt prompt; Log "Sending request to http://svc//list"] =
    (pre' ++ [Log ("Sending request to " ++ "http://svc//list")])%list.
Proof.
  assert (H : events (run (scenario NoReply) "test") =
              ([Print banner; Prompt prompt; Log "Sending request to http://svc//list"]
                 ++ Post "http://svc//list" request_body :: [])%list)
    by (vm_compute; reflexivity).
  split; [exact H|].
  exact (proj2 (every_post_is_announced (scenario NoReply) "test") _ _ _ _ H).
Defined.

(** X2: a run posts only what the configuration and the fixtures account
    for: the name typed is a known environment, its section is there, and
    the URL of the post is the base URL of one of its microservices followed
    by one of the endpoints of that microservice, the body is the request
    fixture of that endpoint and the file of the recorded response
    exists. *)
Theorem posts_are_accounted_for (w : world) (typed : string) (u : string) (b : json) :
  In (Post u b) (events (run w typed)) ->
  known (Text.lower typed) = true /\
  exists items,
    config_items w ("urls-" ++ Text.lower typed) = Ok items /\
    accounted w items u b.
Proof.
  rewrite run_cases.
  destruct (known (Text.lower typed)) eqn:K;
    [|cbn; intros [H|[H|[]]]; discriminate].
  destruct (config_items w ("urls-" ++ Text.lower typed)) as [items|e] eqn:E;
    [|cbn; intros [H|[H|[]]]; discriminate].
  cbn [events fst]. intros [H|[H|Hin]]; try discriminate.
  split; [reflexivity|]. exists items. split; [reflexivity|].
  set (P := fun (h : list event) (_ : tmp) =>
              forall u b, In (Post u b) h -> accounted w items u b).
  assert (HP : P ([] ++ events (for_each items (check_microservice w) no_tmp))%list
                 (files (for_each items (check_microservice w) no_tmp))).
  { apply (preserves_for_each P); [|now intros ? ? []].
    intros [name base] Hitem. apply preserves_check_microservice.
    intros value endpoint Hget Hep h t Hh u' b' Hin'.
    apply in_app_or in Hin' as [Hin'|Hin']; [now apply Hh|].
    destruct (check_endpoint_events w base endpoint t) as [Hev|(body & Hrq & Hrs & Hev)];
      rewrite Hev in Hin'; [destruct Hin'|].
    destruct Hin' as [Hl|[Hp|[]]]; [discriminate|]. inversion Hp; subst u' b'.
    exists name, base, value, endpoint. repeat split; assumption. }
  now apply HP.
Qed.

Lemma posts_are_accounted_for_witness :
  In (Post "http://svc//list" request_body)
     (events (run (scenario (Reply 200 (Some (status "ok")))) "test")) /\
  known (Text.lower "test") = true /\
  exists items,
    config_items (scenario (Reply 200 (Some (status "ok")))) ("urls-" ++ Text.lower "test")
      = Ok items /\
    accounted (scenario (Reply 200 (Some (status "ok")))) items "http://svc//list" request_body.
Proof.
  assert (H : In (Post "http://svc//list" request_body)
                 (events (run (scenario (Reply 200 (Some (status "ok")))) "test")))
    by (vm_compute; tauto).
  split; [exact H|].
  exact (posts_are_accounted_for _ _ _ _ H).
Defined.

Lemma texts_app (l1 l2 : list string) : texts (l1 ++ l2) = texts l1 ++ texts l2.
Proof.
  induction l1 as [|x l1 IH]; [reflexivity|].
  cbn [app texts fold_right]. fold (texts (l1 ++ l2)) (texts l1).
  now rewrite IH, append_assoc.
Qed.

Lemma replies_app (w : world) (h ev : list event) :
  replies w (h ++ ev) = (replies w h ++ replies w ev)%list.
Proof. apply flat_map_app. Qed.

(** X3: at the end of every run, however it ends, the first scratch file
    holds the texts of all the JSON bodies the posts of the run were
    answered with, one behind the other in the order of the posts, and both
    scratch files stand at their end. *)
Theorem scratch_file_collects_all_replies (w : world) (typed : string) :
  content (request_compare_tmp (files (run w typed))) =
    texts (map dumps (replies w (events (run w typed)))) /\
  pos (request_compare_tmp (files (run w typed))) =
    length (content (request_compare_tmp (files (run w typed)))) /\
  pos (response_compare_tmp (files (run w typed))) =
    length (content (response_compare_tmp (files (run w typed)))).
Proof.
  apply (run_invariant
           (fun h t =>
              content (request_compare_tmp t) = texts (map dumps (replies w h)) /\
              pos (request_compare_tmp t) = length (content (request_compare_tmp t)) /\
              pos (response_compare_tmp t) = length (content (response_compare_tmp t))));
    [now repeat split|].
  intros items [name base] _ _ _. apply preserves_check_microservice.
  intros value endpoint _ _ h t (Hc & Hp1 & Hp2).
  rewrite replies_app, map_app, texts_app, check_endpoint_run.
  destruct (disk w (request_path endpoint)) as [|[body|]];
    try (cbn; rewrite append_empty_r; now repeat split);
    destruct (disk w (response_path endpoint)) as [|expected];
    try (cbn; rewrite append_empty_r; now repeat split).
  destruct (network w (base ++ endpoint) body) as [|status [response|]] eqn:E;
    cbn [events files fst snd]; unfold call_events, replies; cbn [flat_map]; rewrite E;
    try (cbn; rewrite append_empty_r; now repeat split).
  cbn [app map texts fold_right]. rewrite append_empty_r.
  destruct expected as [expected|];
    [rewrite compare_run | rewrite compare_not_json];
    cbn [files fst snd request_compare_tmp response_compare_tmp].
  - repeat split; try apply write_truncate_at_end.
    rewrite write_truncate_appends by exact Hp1. now rewrite Hc.
  - repeat split; try apply write_truncate_at_end.
    + rewrite write_truncate_appends by exact Hp1. now rewrite Hc.
    + cbn [pos]. now rewrite truncate_size.
Qed.

(** *** The section of the environment *)

(** X5: for a known environment whose section the configuration does not
    have, the run ends with the exception of the lookup right after the
    prompt: nothing is posted, logged or compared. *)
Theorem missing_section_ends_run (w : world) (typed : string) (e : exn) :
  known (Text.lower typed) = true ->
  config_items w ("urls-" ++ Text.lower typed) = Raise e ->
  run w typed = ([Print banner; Prompt prompt], no_tmp, Raise e).
Proof.
  intros K E. now rewrite run_cases, K, E.
Qed.

Lemma missing_section_ends_run_witness :
  known (Text.lower "PROD") = true /\
  config_items (scenario NoReply) ("urls-" ++ Text.lower "PROD") = Raise NoSectionError /\
  run (scenario NoReply) "PROD" = ([Print banner; Prompt prompt], no_tmp, Raise NoSectionError).
Proof.
  split; [reflexivity|]. split; [reflexivity|].
  apply (missing_section_ends_run (scenario NoReply) "PROD" NoSectionError); reflexivity.
Defined.

(** *** Fixtures *)

(** X6: a fixture file that is missing (either of the two) ends the check
    of an endpoint with [FileNotFoundError], also when the request fixture
    is there and sound; and a request fixture on whose text [json.load]
    raises [JSONDecodeError] ends it with that exception; in both cases
    before anything is logged or posted and with the scratch files
    untouched. *)
Theorem damaged_request_side_stops_before_post
    (w : world) (base endpoint : string) (t : tmp) :
  (disk w (request_path endpoint) = Absent \/ disk w (response_path endpoint) = Absent ->
   check_endpoint w base endpoint t = ([], t, Raise FileNotFoundError)) /\
  (disk w (request_path endpoint) = Present None ->
   disk w (response_path endpoint) <> Absent ->
   check_endpoint w base endpoint t = ([], t, Raise JSONDecodeError)).
Proof.
  rewrite check_endpoint_run. split.
  - intros [H|H]; rewrite H; [reflexivity|].
    now destruct (disk w (request_path endpoint)).
  - intros H1 H2. rewrite H1.
    now destruct (disk w (response_path endpoint)).
Qed.

Lemma damaged_request_side_stops_before_post_witness :
  (disk damaged_fixtures (request_path "/none") = Absent \/
   disk damaged_fixtures (response_path "/none") = Absent) /\
  check_endpoint damaged_fixtures "http://svc/" "/none" no_tmp =
    ([], no_tmp, Raise FileNotFoundError) /\
  disk damaged_fixtures (request_path "/bad") = Present None /\
  disk damaged_fixtures (response_path "/bad") <> Absent /\
  check_endpoint damaged_fixtures "http://svc/" "/bad" no_tmp =
    ([], no_tmp, Raise JSONDecodeError).
Proof.
  split; [left; reflexivity|].
  split; [apply (proj1 (damaged_request_side_stops_before_post
                          damaged_fixtures "http://svc/" "/none" no_tmp));
          left; reflexivity|].
  split; [reflexivity|]. split; [vm_compute; discriminate|].
  apply (proj2 (damaged_request_side_stops_before_post
                  damaged_fixtures "http://svc/" "/bad" no_tmp));
    [reflexivity | vm_compute; discriminate].
Defined.

(** X7: a recorded response that is not JSON is found late: the request
    has been logged and posted and the text of the live response is already
    in the first scratch file, the second one having only been truncated,
    when the check ends with [JSONDecodeError]. *)
Theorem damaged_recorded_response_found_after_post
    (w : world) (base endpoint : string) (t : tmp)
    (body response : json) (status : nat) :
  disk w (request_path endpoint) = Present (Some body) ->
  disk w (response_path endpoint) = Present None ->
  network w (base ++ endpoint) body = Reply status (Some response) ->
  check_endpoint w base endpoint t =
  (call_events (base ++ endpoint) body,
   {| request_compare_tmp := write (dumps response) (truncate (request_compare_tmp t));
      response_compare_tmp := truncate (response_compare_tmp t) |},
   Raise JSONDecodeError).
Proof.
  intros H1 H2 H3. now rewrite check_endpoint_run, H1, H2, H3, compare_not_json.
Qed.

Lemma damaged_recorded_response_found_after_post_witness :
  disk damaged_fixtures (request_path "/list") = Present (Some request_body) /\
  disk damaged_fixtures (response_path "/list") = Present None /\
  network damaged_fixtures ("http://svc/" ++ "/list") request_body
    = Reply 200 (Some (Scenario.status "ok")) /\
  check_endpoint damaged_fixtures "http://svc/" "/list" no_tmp =
  (call_events ("http://svc/" ++ "/list") request_body,
   {| request_compare_tmp :=
        write (dumps (Scenario.status "ok")) (truncate (request_compare_tmp no_tmp));
      response_compare_tmp := truncate (response_compare_tmp no_tmp) |},
   Raise JSONDecodeError).
Proof.
  split; [reflexivity|]. split; [reflexivity|]. split; [reflexivity|].
  apply (damaged_recorded_response_found_after_post damaged_fixtures
           "http://svc/" "/list" no_tmp request_body (Scenario.status "ok") 200);
    reflexivity.
Defined.

(** *** The catalogue *)

(** X9: in a known environment whose microservices all fail to resolve
    their endpoints (an empty section among them), the run is the banner and
    the prompt and ends normally: it cannot be told from the run on a name
    that is not an environment. *)
Theorem unresolved_catalogue_is_silent
    (w : world) (typed : string) (items : list (string * string)) :
  known (Text.lower typed) = true ->
  config_items w ("urls-" ++ Text.lower typed) = Ok items ->
  (forall name base, In (name, base) items ->
                     exists e, config_get w name "endpoints" = Raise e) ->
  run w typed = ([Print banner; Prompt prompt], no_tmp, Ok tt).
Proof.
  intros K E H. rewrite run_cases, K, E.
  assert (Hrun : forall t, for_each items (check_microservice w) t = ([], t, Ok tt)).
  { clear K E. induction items as [|[name base] items IH]; intros t; [reflexivity|].
    cbn [for_each]. unfold bind.
    destruct (H name base (or_introl eq_refl)) as [e He].
    rewrite (check_microservice_skip w _ _ _ _ He).
    rewrite IH; [reflexivity|]. intros n b Hin. apply (H n b). now right. }
  now rewrite Hrun.
Qed.

Lemma unresolved_catalogue_is_silent_witness :
  known (Text.lower "Svil") = true /\
  config_items nothing_resolved ("urls-" ++ Text.lower "Svil")
    = Ok [("billing", "http://bill/"); ("stock", "http://stock/")] /\
  run nothing_resolved "Svil" = ([Print banner; Prompt prompt], no_tmp, Ok tt).
Proof.
  split; [reflexivity|]. split; [reflexivity|].
  refine (unresolved_catalogue_is_silent nothing_resolved "Svil"
            [("billing", "http://bill/"); ("stock", "http://stock/")]
            eq_refl eq_refl _).
  intros name base _. exists NoSectionError. reflexivity.
Defined.

(** X11: when every endpoint of a list has both fixtures in JSON and gets
    a reply with a JSON body, the loop over the endpoints returns normally
    and its trace is one log line and one post per endpoint, in the order of
    the list (an endpoint listed twice is posted twice), each to the base
    URL with the endpoint appended as it is and with the request fixture as
    body. *)
Theorem healthy_endpoints_are_posted_in_order
    (w : world) (base : string) (endpoints : list string)
    (body expected answer : string -> json) (t : tmp) :
  (forall endpoint, In endpoint endpoints ->
     disk w (request_path endpoint) = Present (Some (body endpoint)) /\
     disk w (response_path endpoint) = Present (Some (expected endpoint)) /\
     exists status,
       network w (base ++ endpoint) (body endpoint) = Reply status (Some (answer endpoint))) ->
  events (for_each endpoints (check_endpoint w base) t) =
    flat_map (fun endpoint => call_events (base ++ endpoint) (body endpoint)) endpoints /\
  outcome (for_each endpoints (check_endpoint w base) t) = Ok tt.
Proof.
  revert t. induction endpoints as [|endpoint rest IH]; intros t H; [now split|].
  destruct (H endpoint (or_introl eq_refl)) as (H1 & H2 & status & H3).
  assert (Hrest : forall e, In e rest ->
     disk w (request_path e) = Present (Some (body e)) /\
     disk w (response_path e) = Present (Some (expected e)) /\
     exists status, network w (base ++ e) (body e) = Reply status (Some (answer e)))
    by (intros e He; apply H; now right).
  cbn [for_each flat_map]. unfold bind.
  rewrite check_endpoint_run, H1, H2, H3, compare_run. cbn [files outcome fst snd].
  specialize (IH (files (compare (answer endpoint) (Some (expected endpoint)) t)) Hrest).
  rewrite compare_run in IH. cbn [files fst snd] in IH.
  destruct (for_each rest (check_endpoint w base) _) as [[ev t'] r].
  cbn [events outcome fst snd] in *. destruct IH as [-> ->]. now split.
Qed.

Lemma healthy_endpoints_are_posted_in_order_witness :
  events (for_each ["/list"; "/count"] (check_endpoint two_endpoints "http://svc/") no_tmp) =
    flat_map (fun endpoint => call_events ("http://svc/" ++ endpoint) request_body)
             ["/list"; "/count"] /\
  outcome (for_each ["/list"; "/count"] (check_endpoint two_endpoints "http://svc/") no_tmp)
    = Ok tt.
Proof.
  apply (healthy_endpoints_are_posted_in_order two_endpoints "http://svc/"
           ["/list"; "/count"] (fun _ => request_body) recorded recorded no_tmp).
  intros endpoint [<-|[<-|[]]]; (split; [reflexivity|]); (split; [reflexivity|]);
    exists 200; reflexivity.
Defined.

Lemma for_each_stops {A} (body : A -> M unit) (x : A) (rest : list A) (e : exn) :
  forall (done : list A) (t : tmp),
    outcome (for_each done body t) = Ok tt ->
    outcome (body x (files (for_each done body t))) = Raise e ->
    for_each (done ++ x :: rest) body t =
    ((events (for_each done body t) ++ events (body x (files (for_each done body t))))%list,
     files (body x (files (for_each done body t))),
     Raise e).
Proof.
  induction done as [|y done IH]; intros t Hok Hx.
  - cbn [app for_each] in *. unfold bind. cbn [ret files fst snd events] in *.
    destruct (body x t) as [[ev t1] r]. cbn in Hx. now subst r.
  - cbn [app for_each] in *. unfold bind in *.
    destruct (body y t) as [[ev t1] [[]|e1]]; [|discriminate].
    specialize (IH t1).
    destruct (for_each done body t1) as [[ev' t2] r]. cbn [outcome files events fst snd] in *.
    rewrite (IH Hok Hx). now rewrite app_assoc.
Qed.

(** X8: an exception at one endpoint ends the run there.  When the
    microservices before the one of the endpoint, and the endpoints before
    it, were checked without an exception, the run is the banner, the
    prompt, their events and those of the failing check, and it ends with
    the exception of that check: the endpoints and the microservices that
    come later are never looked at. *)
Theorem failing_endpoint_ends_the_run
    (w : world) (typed : string)
    (before after : list (string * string)) (name base value : string)
    (done left : list string) (endpoint : string) (e : exn) :
  known (Text.lower typed) = true ->
  config_items w ("urls-" ++ Text.lower typed) = Ok (before ++ (name, base) :: after)%list ->
  config_get w name "endpoints" = Ok value ->
  endpoints_of value = (done ++ endpoint :: left)%list ->
  outcome (for_each before (check_microservice w) no_tmp) = Ok tt ->
  outcome (for_each done (check_endpoint w base)
             (files (for_each before (check_microservice w) no_tmp))) = Ok tt ->
  outcome (check_endpoint w base endpoint
             (files (for_each done (check_endpoint w base)
                       (files (for_each before (check_microservice w) no_tmp))))) = Raise e ->
  run w typed =
  (Print banner :: Prompt prompt ::
     (events (for_each before (check_microservice w) no_tmp) ++
      events (for_each done (check_endpoint w base)
                (files (for_each before (check_microservice w) no_tmp))) ++
      events (check_endpoint w base endpoint
                (files (for_each done (check_endpoint w base)
                          (files (for_each before (check_microservice w) no_tmp))))))%list,
   files (check_endpoint w base endpoint
            (files (for_each done (check_endpoint w base)
                      (files (for_each before (check_microservice w) no_tmp))))),
   Raise e).
Proof.
  intros K E G V H1 H2 H3. rewrite run_cases, K, E.
  set (t1 := files (for_each before (check_microservice w) no_tmp)) in *.
  assert (Hm : check_microservice w (name, base) t1 =
               ((events (for_each done (check_endpoint w base) t1) ++
                 events (check_endpoint w base endpoint
                           (files (for_each done (check_endpoint w base) t1))))%list,
                files (check_endpoint w base endpoint
                         (files (for_each done (check_endpoint w base) t1))),
                Raise e)).
  { rewrite (check_microservice_resolved w _ _ _ _ G).
    fold (endpoints_of value). rewrite V. now apply for_each_stops. }
  rewrite (for_each_stops (check_microservice w) (name, base) after e before no_tmp H1);
    fold t1; rewrite Hm; reflexivity.
Qed.

Lemma failing_endpoint_ends_the_run_witness :
  run damaged_fixtures "test" =
  (Print banner :: Prompt prompt ::
     ([] ++ [] ++ call_events "http://svc//list" request_body)%list,
   {| request_compare_tmp :=
        mk (dumps (Scenario.status "ok")) (length (dumps (Scenario.status "ok")));
      response_compare_tmp := fresh |},
   Raise JSONDecodeError).
Proof.
  exact (failing_endpoint_ends_the_run damaged_fixtures "test"
           [] [] "orders" "http://svc/" "/list,/bad,/none" [] ["/bad"; "/none"] "/list"
           JSONDecodeError eq_refl eq_refl eq_refl eq_refl eq_refl eq_refl eq_refl).
Defined.

Lemma for_each_ext {A} (body body' : A -> M unit) (l : list A) :
  (forall x t, body x t = body' x t) ->
  forall t, for_each l body t = for_each l body' t.
Proof.
  intros H. induction l as [|x xs IH]; intros t; [reflexivity|].
  cbn [for_each]. unfold bind. rewrite H.
  destruct (body' x t) as [[ev t1] [a|e]]; [|reflexivity]. now rewrite IH.
Qed.

(** X10: a run reads the configuration only at the section of its
    environment and at the [endpoints] key of the microservices: two worlds
    that agree there, on the disk and on the network give the same run,
    whatever other sections and keys they hold. *)
Theorem run_reads_only_its_section (w w' : world) (typed : string) :
  config_items w ("urls-" ++ Text.lower typed) = config_items w' ("urls-" ++ Text.lower typed) ->
  (forall name, config_get w name "endpoints" = config_get w' name "endpoints") ->
  (forall path, disk w path = disk w' path) ->
  (forall u b, network w u b = network w' u b) ->
  run w typed = run w' typed.
Proof.
  intros Hitems Hget Hdisk Hnet. rewrite !run_cases, Hitems.
  destruct (known (Text.lower typed)); [|reflexivity].
  destruct (config_items w' ("urls-" ++ Text.lower typed)) as [items|e]; [|reflexivity].
  assert (He : forall base endpoint t,
             check_endpoint w base endpoint t = check_endpoint w' base endpoint t).
  { intros base endpoint t. rewrite !check_endpoint_run, !Hdisk.
    destruct (disk w' (request_path endpoint)) as [|[body|]]; try reflexivity.
    now rewrite Hnet. }
  assert (Hm : forall item t, check_microservice w item t = check_microservice w' item t).
  { intros [name base] t. specialize (Hget name).
    destruct (config_get w' name "endpoints") as [value|e] eqn:E.
    - rewrite (check_microservice_resolved w _ _ _ _ Hget),
              (check_microservice_resolved w' _ _ _ _ E).
      apply for_each_ext. intros; apply He.
    - rewrite (check_microservice_skip w _ _ _ _ Hget),
              (check_microservice_skip w' _ _ _ _ E). reflexivity. }
  now rewrite (for_each_ext _ _ items Hm).
Qed.

Lemma run_reads_only_its_section_witness :
  run (scenario (Reply 200 (Some (Scenario.status "fail")))) "Test" =
  run (with_more_configuration (scenario (Reply 200 (Some (Scenario.status "fail"))))) "Test".
Proof.
  apply (run_reads_only_its_section
           (scenario (Reply 200 (Some (Scenario.status "fail"))))
           (with_more_configuration (scenario (Reply 200 (Some (Scenario.status "fail")))))
           "Test");
    [reflexivity | intros name; reflexivity | intros path; reflexivity
    | intros u b; reflexivity].
Defined.

(** X4: which exception the lookup of an [endpoints] key raises makes no
    difference to a run: two worlds whose lookups return the same values
    where they return one, and raise, whatever it is, for the same
    microservices, and that agree on the section of the environment, on the
    disk and on the network, give the same run. *)
Theorem lookup_exception_makes_no_difference (w w' : world) (typed : string) :
  config_items w ("urls-" ++ Text.lower typed) = config_items w' ("urls-" ++ Text.lower typed) ->
  (forall name,
      same_lookup (config_get w name "endpoints") (config_get w' name "endpoints")) ->
  (forall path, disk w path = disk w' path) ->
  (forall u b, network w u b = network w' u b) ->
  run w typed = run w' typed.
Proof.
  intros Hitems Hget Hdisk Hnet. rewrite !run_cases, Hitems.
  destruct (known (Text.lower typed)); [|reflexivity].
  destruct (config_items w' ("urls-" ++ Text.lower typed)) as [items|e]; [|reflexivity].
  assert (He : forall base endpoint t,
             check_endpoint w base endpoint t = check_endpoint w' base endpoint t).
  { intros base endpoint t. rewrite !check_endpoint_run, !Hdisk.
    destruct (disk w' (request_path endpoint)) as [|[body|]]; try reflexivity.
    now rewrite Hnet. }
  assert (Hm : forall item t, check_microservice w item t = check_microservice w' item t).
  { intros [name base] t. specialize (Hget name). unfold same_lookup in Hget.
    destruct (config_get w name "endpoints") as [value|e] eqn:E;
      destruct (config_get w' name "endpoints") as [value'|e'] eqn:E';
      try contradiction.
    - subst value'.
      rewrite (check_microservice_resolved w _ _ _ _ E),
              (check_microservice_resolved w' _ _ _ _ E').
      apply for_each_ext. intros; apply He.
    - rewrite (check_microservice_skip w _ _ _ _ E),
              (check_microservice_skip w' _ _ _ _ E'). reflexivity. }
  now rewrite (for_each_ext _ _ items Hm).
Qed.

Lemma lookup_exception_makes_no_difference_witness :
  config_get with_unresolved "billing" "endpoints" = Raise NoSectionError /\
  config_get (with_other_lookup_errors with_unresolved) "billing" "endpoints"
    = Raise InterpolationError /\
  run with_unresolved "test" = run (with_other_lookup_errors with_unresolved) "test".
Proof.
  split; [reflexivity|]. split; [reflexivity|].
  apply (lookup_exception_makes_no_difference
           with_unresolved (with_other_lookup_errors with_unresolved) "test");
    [reflexivity | | intros path; reflexivity | intros u b; reflexivity].
  intros name. unfold same_lookup, with_other_lookup_errors. cbn [config_get].
  now destruct (config_get with_unresolved name "endpoints").
Defined.

(** *** The list of endpoints *)

Lemma split_not_nil (sep : ascii) (s : string) : Text.split sep s <> [].
Proof.
  destruct s as [|c s]; cbn [Text.split]; [discriminate|].
  destruct (Ascii.eqb c sep); [discriminate|].
  destruct (Text.split sep s); discriminate.
Qed.

Lemma split_pieces (sep : ascii) (s : string) :
  Forall (fun p => has_char sep p = false) (Text.split sep s).
Proof.
  induction s as [|c s IH]; cbn [Text.split]; [repeat constructor|].
  destruct (Ascii.eqb c sep) eqn:E; [constructor; [reflexivity | exact IH]|].
  destruct (Text.split sep s) as [|p ps]; [repeat constructor; cbn; now rewrite E|].
  inversion IH as [|? ? Hp Hps]; subst. constructor; [|exact Hps].
  cbn [has_char]. now rewrite E, Hp.
Qed.

Lemma split_length (sep : ascii) (s : string) :
  List.length (Text.split sep s) = S (count_char sep s).
Proof.
  induction s as [|c s IH]; cbn [Text.split count_char]; [reflexivity|].
  destruct (Ascii.eqb c sep); [cbn; now rewrite IH|].
  destruct (Text.split sep s) as [|p ps]; [discriminate|]. exact IH.
Qed.

Lemma join_split (sep : ascii) (s : string) :
  Text.join (String sep "") (Text.split sep s) = s.
Proof.
  induction s as [|c s IH]; cbn [Text.split]; [reflexivity|].
  destruct (Ascii.eqb c sep) eqn:E.
  - apply Ascii.eqb_eq in E. subst c.
    pose proof (split_not_nil sep s) as Hn.
    destruct (Text.split sep s) as [|p ps]; [congruence|].
    cbn [Text.join append] in *. now rewrite IH.
  - pose proof (split_not_nil sep s) as Hn.
    destruct (Text.split sep s) as [|p ps]; [congruence|].
    destruct ps as [|q ps]; cbn [Text.join append] in *; now rewrite IH.
Qed.

Lemma has_char_lstrip (c : ascii) (s : string) :
  has_char c s = false -> has_char c (Text.lstrip s) = false.
Proof.
  induction s as [|a s IH]; [reflexivity|]. cbn [Text.lstrip].
  destruct (Text.is_space a); [|easy].
  cbn [has_char]. intros H. apply orb_false_iff in H as [_ H]. now apply IH.
Qed.

Lemma has_char_rstrip (c : ascii) (s : string) :
  has_char c s = false -> has_char c (Text.rstrip s) = false.
Proof.
  induction s as [|a s IH]; [reflexivity|]. cbn [Text.rstrip has_char].
  intros H. apply orb_false_iff in H as [Ha H]. specialize (IH H).
  destruct (Text.rstrip s) as [|b r].
  - destruct (Text.is_space a); [reflexivity|]. cbn. now rewrite Ha.
  - cbn [has_char] in *. now rewrite Ha, IH.
Qed.

Lemma first_lstrip (s : string) : spaced (first_char (Text.lstrip s)) = false.
Proof.
  induction s as [|a s IH]; [reflexivity|]. cbn [Text.lstrip].
  destruct (Text.is_space a) eqn:E; [exact IH | cbn; exact E].
Qed.

Lemma first_rstrip (s : string) :
  spaced (first_char s) = false -> spaced (first_char (Text.rstrip s)) = false.
Proof.
  destruct s as [|a s]; [reflexivity|]. cbn [first_char spaced Text.rstrip].
  intros H. destruct (Text.rstrip s); [now rewrite H | exact H].
Qed.

Lemma last_rstrip (s : string) : spaced (last_char (Text.rstrip s)) = false.
Proof.
  induction s as [|a s IH]; [reflexivity|]. cbn [Text.rstrip].
  destruct (Text.rstrip s) as [|b r].
  - destruct (Text.is_space a) eqn:E; [reflexivity | cbn; exact E].
  - exact IH.
Qed.

(** X12: no endpoint of a microservice holds a comma, and none begins or
    ends with white space. *)
Theorem endpoints_are_trimmed_pieces (value endpoint : string) :
  In endpoint (endpoints_of value) ->
  has_char "," endpoint = false /\
  spaced (first_char endpoint) = false /\
  spaced (last_char endpoint) = false.
Proof.
  unfold endpoints_of. intros H. apply in_map_iff in H as (piece & <- & Hin).
  pose proof (split_pieces "," value) as Hp. rewrite Forall_forall in Hp.
  specialize (Hp piece Hin). unfold Text.strip. repeat split.
  - now apply has_char_rstrip, has_char_lstrip.
  - apply first_rstrip, first_lstrip.
  - apply last_rstrip.
Qed.

Lemma endpoints_are_trimmed_pieces_witness :
  In "/count" (endpoints_of " /list , /count ") /\
  has_char "," "/count" = false /\
  spaced (first_char "/count") = false /\
  spaced (last_char "/count") = false.
Proof.
  assert (H : In "/count" (endpoints_of " /list , /count ")) by (vm_compute; tauto).
  split; [exact H|]. exact (endpoints_are_trimmed_pieces _ _ H).
Defined.

(** X13: the value of an [endpoints] key gives one endpoint more than it
    has commas, so at least one, the empty value too; and the pieces joined
    with commas are the value again: nothing of it is dropped before the
    pieces are trimmed. *)
Theorem one_endpoint_more_than_commas (value : string) :
  List.length (endpoints_of value) = S (count_char "," value) /\
  Text.join "," (Text.split "," value) = value.
Proof.
  split; [|apply join_split].
  unfold endpoints_of. rewrite length_map. apply split_length.
Qed.

(** *** The name of the environment *)

Lemma known_names (env : string) :
  known env = true -> env = "svil" \/ env = "test" \/ env = "prod".
Proof.
  unfold known, environments. cbn [existsb].
  rewrite !orb_true_iff, !String.eqb_eq. intuition congruence.
Qed.

Lemma lower_char_space (c : ascii) :
  Text.is_space c = true -> Text.lower_char c = c.
Proof.
  destruct c as [[] [] [] [] [] [] [] []]; vm_compute; congruence.
Qed.

Lemma length_lower (s : string) : length (Text.lower s) = length s.
Proof. induction s; cbn; congruence. Qed.

Lemma first_lower (s : string) :
  first_char (Text.lower s) = option_map Text.lower_char (first_char s).
Proof. now destruct s. Qed.

Lemma last_lower (s : string) :
  last_char (Text.lower s) = option_map Text.lower_char (last_char s).
Proof.
  induction s as [|c s IH]; [reflexivity|].
  cbn [Text.lower last_char]. destruct s as [|c2 s]; [reflexivity|]. exact IH.
Qed.

Lemma spaced_lower (c : option ascii) :
  spaced c = true -> spaced (option_map Text.lower_char c) = true.
Proof.
  destruct c as [a|]; [|easy]. cbn. intros H. now rewrite (lower_char_space a H).
Qed.

(** X14: the name typed is put in lower case but not trimmed: every name
    the gate lets through has four characters and neither begins nor ends
    with white space, so that the empty name and a name with a blank before
    or behind it end the run at the gate. *)
Theorem accepted_names_are_bare (typed : string) :
  known (Text.lower typed) = true ->
  length typed = 4 /\
  spaced (first_char typed) = false /\
  spaced (last_char typed) = false.
Proof.
  intros K. apply known_names in K.
  assert (H : length (Text.lower typed) = 4 /\
              spaced (first_char (Text.lower typed)) = false /\
              spaced (last_char (Text.lower typed)) = false)
    by (destruct K as [-> | [-> | ->]]; now repeat split).
  destruct H as (Hl & Hf & Hb). rewrite length_lower in Hl.
  rewrite first_lower in Hf. rewrite last_lower in Hb.
  repeat split; [exact Hl | |].
  - destruct (spaced (first_char typed)) eqn:E; [|reflexivity].
    apply spaced_lower in E. congruence.
  - destruct (spaced (last_char typed)) eqn:E; [|reflexivity].
    apply spaced_lower in E. congruence.
Qed.

Lemma accepted_names_are_bare_witness :
  known (Text.lower "ProD") = true /\
  length "ProD" = 4 /\
  spaced (first_char "ProD") = false /\
  spaced (last_char "ProD") = false.
Proof.
  split; [reflexivity|]. apply (accepted_names_are_bare "ProD"). reflexivity.
Defined.

(** *** Reading the scratch files *)

Lemma length_drop (n : nat) (s : string) : length (Text.drop n s) = length s - n.
Proof.
  revert s; induction n as [|n IH]; intros [|c s]; cbn; try reflexivity. apply IH.
Qed.

(** The lines an iteration yields take up the whole text. *)
Lemma readlines_widths (s : string) : widths (readlines s) = length s.
Proof.
  induction s as [|c s IH]; [reflexivity|].
  cbn [readlines length].
  destruct (Ascii.eqb c Text.LF); [cbn; now rewrite <- IH|].
  destruct (Ascii.eqb c Text.CR).
  - destruct s as [|c2 s2]; [reflexivity|].
    destruct (Ascii.eqb c2 Text.LF) eqn:E2.
    + cbn [readlines] in IH. rewrite E2 in IH. cbn in *. lia.
    + cbn [widths fold_right snd]. fold (widths (readlines (String c2 s2))).
      now rewrite IH.
  - destruct (readlines s) as [|[l n] rest]; cbn in *; lia.
Qed.

Lemma zip_lines_bounds (it1 it2 : list (string * nat)) :
  fst (snd (zip_lines it1 it2)) <= widths it1 /\
  snd (snd (zip_lines it1 it2)) <= widths it2.
Proof.
  revert it2; induction it1 as [|[l1 n1] it1 IH]; intros [|[l2 n2] it2];
    cbn; try lia.
  specialize (IH it2). destruct (zip_lines it1 it2) as [ps [a b]]. cbn in *.
  fold (widths it1) (widths it2). lia.
Qed.

(** X15: the loop of lines 66 to 68 only reads: it returns normally, it
    leaves the text of both scratch files as it is, and it moves the
    position of a file forward only, and not beyond the end of the text when
    the file stood within it. *)
Theorem comparing_only_reads (t : tmp) :
  outcome (compare_lines t) = Ok tt /\
  content (request_compare_tmp (files (compare_lines t))) = content (request_compare_tmp t) /\
  content (response_compare_tmp (files (compare_lines t))) = content (response_compare_tmp t) /\
  pos (request_compare_tmp t) <= pos (request_compare_tmp (files (compare_lines t))) /\
  pos (request_compare_tmp (files (compare_lines t)))
    <= Nat.max (pos (request_compare_tmp t)) (length (content (request_compare_tmp t))) /\
  pos (response_compare_tmp t) <= pos (response_compare_tmp (files (compare_lines t))) /\
  pos (response_compare_tmp (files (compare_lines t)))
    <= Nat.max (pos (response_compare_tmp t)) (length (content (response_compare_tmp t))).
Proof.
  rewrite compare_lines_run.
  cbn [outcome files fst snd request_compare_tmp response_compare_tmp advance content pos].
  destruct (zip_lines_bounds (iter (request_compare_tmp t)) (iter (response_compare_tmp t)))
    as [H1 H2].
  unfold iter, unread in *. rewrite !readlines_widths, !length_drop in *.
  repeat split; lia.
Qed.

(** *** No second try *)

Lemma posts_of_check_endpoint (w : world) (base endpoint : string) (t : tmp) :
  List.length (filter is_post (events (check_endpoint w base endpoint t))) <= 1.
Proof.
  destruct (check_endpoint_events w base endpoint t) as [->|(body & _ & _ & ->)];
    cbn; lia.
Qed.

Lemma posts_of_for_each {A} (body : A -> M unit) (bound : A -> nat) (l : list A) :
  (forall x t, List.length (filter is_post (events (body x t))) <= bound x) ->
  forall t, List.length (filter is_post (events (for_each l body t))) <= sum_of (map bound l).
Proof.
  intros H. induction l as [|x xs IH]; intros t; [cbn; lia|].
  cbn [for_each map sum_of fold_right]. fold (sum_of (map bound xs)).
  unfold bind. specialize (H x t).
  destruct (body x t) as [[ev t1] [[]|e]]; cbn [events fst] in *; [|lia].
  specialize (IH t1). destruct (for_each xs body t1) as [[ev' t2] r].
  cbn [events fst] in *. rewrite filter_app, length_app. lia.
Qed.

Lemma sum_of_ones {A} (l : list A) : sum_of (map (fun _ => 1) l) = List.length l.
Proof.
  induction l as [|x l IH]; [reflexivity|].
  unfold sum_of in *. cbn. now rewrite IH.
Qed.

(** X16: nothing is tried twice: a run makes at most as many posts as
    the microservices of its environment list endpoints (a microservice
    whose lookup raises lists none), and none when the section of the
    environment is missing or the name is not an environment. *)
Theorem at_most_one_post_per_listed_endpoint (w : world) (typed : string) :
  List.length (filter is_post (events (run w typed))) <=
  if known (Text.lower typed) then
    match config_items w ("urls-" ++ Text.lower typed) with
    | Ok items => sum_of (map (endpoints_listed w) items)
    | Raise _ => 0
    end
  else 0.
Proof.
  rewrite run_cases.
  destruct (known (Text.lower typed)); [|cbn; lia].
  destruct (config_items w ("urls-" ++ Text.lower typed)) as [items|e]; [|cbn; lia].
  cbn [events fst filter is_post].
  apply posts_of_for_each. intros [name base] t. unfold endpoints_listed. cbn [fst].
  destruct (config_get w name "endpoints") as [value|e] eqn:E.
  - rewrite (check_microservice_resolved w _ _ _ _ E). fold (endpoints_of value).
    rewrite <- (sum_of_ones (endpoints_of value)).
    apply posts_of_for_each. intros endpoint t'.
    apply posts_of_check_endpoint.
  - rewrite (check_microservice_skip w _ _ _ _ E). cbn. lia.
Qed.

End Extras.
